(** * Redis inspection tool of the LiteLLM proxy: a shallow embedding

    The development follows [inspect_redis.py]: the two formatters
    ([format_bytes], [format_ttl]), the single-key inspector ([inspect_key])
    and the report driver ([main]) with its inlined key classifier and
    statistics.  Python values are modelled as the interpreter has them:
    [str] is a sequence of Unicode code points, [int] is unbounded ([Z]),
    [float] is IEEE-754 binary64 (the Standard Library's [SpecFloat]),
    exceptions are an error result, [print] appends to an output log and
    every call on the Redis client is appended to a command trace.  The
    server is a snapshot that answers every command; a run starts from the
    lines of the [.env] file and the environment the process inherits. *)

From Stdlib Require Import ZArith List String Ascii Bool Lia.
From Stdlib Require Import DecimalString SpecFloat Sorted Permutation.
Import ListNotations.
Open Scope Z_scope.

(** ** Python strings *)

(** A Python [str] is a sequence of code points. *)
Definition char := N.
Definition pystr := list char.

(** Embedding of an ASCII literal of the source. *)
Definition lit (s : string) : pystr :=
  map N_of_ascii (list_ascii_of_string s).

Fixpoint pystr_eqb (a b : pystr) : bool :=
  match a, b with
  | [], [] => true
  | x :: a', y :: b' => N.eqb x y && pystr_eqb a' b'
  | _, _ => false
  end.

(** [s.startswith(p)] *)
Fixpoint startswith (s p : pystr) {struct p} : bool :=
  match p, s with
  | [], _ => true
  | _ :: _, [] => false
  | x :: p', y :: s' => N.eqb x y && startswith s' p'
  end.

(** Leftmost occurrence of [pat] in [s]: the text before it and the text
    after it ([str.find] followed by the two slices). *)
Fixpoint find_first (pat s : pystr) {struct s} : option (pystr * pystr) :=
  if startswith s pat then Some ([], skipn (List.length pat) s)
  else match s with
       | [] => None
       | c :: t =>
           match find_first pat t with
           | Some (pre, post) => Some (c :: pre, post)
           | None => None
           end
       end.

(** [s.replace(old, new, 1)] *)
Definition replace1 (s old new : pystr) : pystr :=
  match find_first old s with
  | Some (pre, post) => pre ++ new ++ post
  | None => s
  end.

(** [s.split(sep, 1)] for a non-empty separator *)
Definition split1 (s sep : pystr) : list pystr :=
  match find_first sep s with
  | Some (pre, post) => [pre; post]
  | None => [s]
  end.

(** [sub in s] *)
Definition contains (s sub : pystr) : bool :=
  match find_first sub s with Some _ => true | None => false end.

(** [len(s)] and [s[:n]] *)
Definition len {A} (l : list A) : Z := Z.of_nat (List.length l).
Definition slice_to {A} (n : nat) (l : list A) : list A := firstn n l.

(** [s.encode('utf-8')]: the bytes of each code point, a lead byte and up
    to three continuation bytes of six bits.  The text the client decodes
    from a reply holds no surrogate, which [encode] refuses. *)
Definition utf8_encode_char (c : char) : list N :=
  (if c <? 128 then [c]
   else if c <? 2048 then [192 + c / 64; 128 + c mod 64]
   else if c <? 65536 then
     [224 + c / 4096; 128 + (c / 64) mod 64; 128 + c mod 64]
   else
     [240 + c / 262144; 128 + (c / 4096) mod 64; 128 + (c / 64) mod 64;
      128 + c mod 64])%N.

Definition utf8_encode (s : pystr) : list N :=
  flat_map utf8_encode_char s.

(** [str(n)] for an [int] *)
Definition str_of_int (z : Z) : pystr :=
  lit (NilZero.string_of_int (Z.to_int z)).

(** [c * n] for a one-character string, as in ['='*60] *)
Definition repeat_char (c : string) (n : nat) : pystr :=
  List.concat (repeat (lit c) n).

(** ** Exceptions *)

Inductive exn : Type :=
| ZeroDivisionError
| OverflowError
| TypeError
| ValueError
(** what [os.environ] raises when it refuses an assignment: [ValueError],
    or [OSError] for an empty name *)
| EnvironError
| ResponseError
| SystemExit (code : Z).

Inductive result (A : Type) : Type :=
| Ok (a : A)
| Raise (e : exn).
Arguments Ok {A} a.
Arguments Raise {A} e.

Definition rbind {A B} (r : result A) (k : A -> result B) : result B :=
  match r with
  | Ok a => k a
  | Raise e => Raise e
  end.

Declare Scope result_scope.
Delimit Scope result_scope with result.
Notation "'let?' x ':=' r 'in' k" := (rbind r (fun x => k))
  (at level 10, x name, r at level 100, k at level 200) : result_scope.

(** ** Python numbers *)

(** [float] is binary64. *)
Definition float := spec_float.
Definition prec : Z := 53.
Definition emax : Z := 1024.

Definition fdiv : float -> float -> float := SFdiv prec emax.
Definition fmul : float -> float -> float := SFmul prec emax.
Definition fltb : float -> float -> bool := SFltb.

(** The float nearest to an integer (round half to even). *)
Definition flt (z : Z) : float := binary_normalize prec emax z 0 false.

(** Integers from this magnitude on round beyond the largest float. *)
Definition float_overflow : Z := 2 ^ 1024 - 2 ^ 970.

(** [float(n)]: raises [OverflowError] when [n] is too large. *)
Definition float_of_int (z : Z) : result float :=
  if Z.abs z <? float_overflow then Ok (flt z) else Raise OverflowError.

(** [a / b] on two [int]s: the correctly rounded quotient. *)
Definition int_truediv (a b : Z) : result float :=
  if b =? 0 then Raise ZeroDivisionError
  else if float_overflow * Z.abs b <=? Z.abs a then Raise OverflowError
  else Ok match a with
          | 0 => S754_zero (b <? 0)
          | _ => fdiv (S754_finite (a <? 0) (Z.to_pos (Z.abs a)) 0)
                      (S754_finite (b <? 0) (Z.to_pos (Z.abs b)) 0)
          end.

(** A value that is an [int] or a [float], as [size] in [format_bytes]
    and [hit_rate] in [main]. *)
Inductive pynum : Type :=
| PInt (z : Z)
| PFloat (x : float).

(** [v < c] against a float constant that holds the integer [c]: Python
    compares an [int] with a [float] exactly. *)
Definition num_lt_const (v : pynum) (c : Z) : bool :=
  match v with
  | PInt z => z <? c
  | PFloat x => fltb x (flt c)
  end.

(** [v / c] with [c] a non-zero constant, the result is a [float]. *)
Definition num_div_const (v : pynum) (c : Z) : result float :=
  match v with
  | PInt z => (let? x := float_of_int z in Ok (fdiv x (flt c)))%result
  | PFloat x => Ok (fdiv x (flt c))
  end.

(** *** The format specification [.2f] *)

(** Nearest integer to [a / b], ties to even ([0 <= a], [0 < b]). *)
Definition div_half_even (a b : Z) : Z :=
  let q := a / b in
  let r := a mod b in
  match 2 * r ?= b with
  | Lt => q
  | Gt => q + 1
  | Eq => if Z.even q then q else q + 1
  end.

(** [m * 2^e], in hundredths, correctly rounded. *)
Definition hundredths (m : positive) (e : Z) : Z :=
  if 0 <=? e then Zpos m * 2 ^ e * 100
  else div_half_even (Zpos m * 100) (2 ^ (- e)).

Definition two_digits (n : Z) : pystr :=
  if n <? 10 then lit "0" ++ str_of_int n else str_of_int n.

Definition fixed2 (neg : bool) (h : Z) : pystr :=
  (if neg then lit "-" else []) ++
  str_of_int (h / 100) ++ lit "." ++ two_digits (h mod 100).

(** [f"{x:.2f}"] for a [float] *)
Definition format_2f (x : float) : pystr :=
  match x with
  | S754_zero s => fixed2 s 0
  | S754_infinity s => if s then lit "-inf" else lit "inf"
  | S754_nan => lit "nan"
  | S754_finite s m e => fixed2 s (hundredths m e)
  end.

(** [f"{v:.2f}"]: an [int] is converted to [float] first. *)
Definition format_2f_num (v : pynum) : result pystr :=
  match v with
  | PInt z => (let? x := float_of_int z in Ok (format_2f x))%result
  | PFloat x => Ok (format_2f x)
  end.

(** [f"{n:,}"]: decimal digits in groups of three. *)
Fixpoint group3 (fuel : nat) (n : Z) : pystr :=
  match fuel with
  | O => str_of_int n
  | S fuel' =>
      if n <? 1000 then str_of_int n
      else group3 fuel' (n / 1000) ++ lit "," ++
           (let r := n mod 1000 in
            (if r <? 100 then lit "0" else []) ++ two_digits r)
  end.

Definition format_commas (z : Z) : pystr :=
  (if z <? 0 then lit "-" else []) ++
  group3 (Z.to_nat (Z.log2 (Z.abs z))) (Z.abs z).

(** ** The formatters of [inspect_redis.py] *)

(** The [for unit in [...]] loop of [format_bytes]; falling off the end of
    the list is the final [return] with [TB]. *)
Fixpoint format_bytes_loop (units : list pystr) (size : pynum)
  : result pystr :=
  match units with
  | [] =>
      (let? t := format_2f_num size in Ok (t ++ lit " TB"))%result
  | unit :: rest =>
      if num_lt_const size 1024 then
        (let? t := format_2f_num size in Ok (t ++ lit " " ++ unit))%result
      else
        (let? x := num_div_const size 1024 in
         format_bytes_loop rest (PFloat x))%result
  end.

Definition format_bytes (size : Z) : result pystr :=
  format_bytes_loop [lit "B"; lit "KB"; lit "MB"; lit "GB"] (PInt size).

(** [datetime.timedelta], normalised as the library stores it. *)
Record timedelta : Type := {
  days : Z;
  seconds : Z;
  microseconds : Z
}.

(** [timedelta(seconds=s)] for an [int]: the day count is bounded. *)
Definition timedelta_of_seconds (s : Z) : result timedelta :=
  let d := s / 86400 in
  if 999999999 <? Z.abs d then Raise OverflowError
  else Ok {| days := d; seconds := s mod 86400; microseconds := 0 |}.

(** [delta.total_seconds()] *)
Definition total_seconds (delta : timedelta) : result float :=
  int_truediv
    ((days delta * 86400 + seconds delta) * 10 ^ 6 + microseconds delta)
    (10 ^ 6).

Definition format_ttl (ttl : Z) : result pystr :=
  if ttl =? -1 then Ok (lit "No expiration")
  else if ttl =? -2 then Ok (lit "Key does not exist")
  else
    (let? delta := timedelta_of_seconds ttl in
     let? secs := total_seconds delta in
     let hours := fdiv secs (flt 3600) in
     Ok (str_of_int ttl ++ lit " seconds (" ++ format_2f hours ++
         lit " hours)"))%result.

(** ** The JSON library

    [json.loads] and [json.dumps] belong to Python's standard library; the
    inspector only depends on whether decoding succeeds and on the text
    that encoding returns, so the library is an interface. *)

Class JsonLib : Type := {
  json : Type;
  (** [json.loads(text)]: [None] when it raises *)
  json_loads : pystr -> option json;
  (** [json.dumps(value, indent=n)] *)
  json_dumps : json -> Z -> pystr
}.

(** ** The interpreter

    Two behaviours of the interpreter are not fixed by the text of the
    program: the integer that [int] reads in a string, and the order in
    which a [set] is iterated, which follows the hashes of its members and
    changes from one process to the next.  The tool depends on them only
    through this interface. *)

Class Interpreter : Type := {
  (** [int(text)]: [None] when it raises [ValueError] *)
  int_of_str : pystr -> option Z;
  (** [list(set(items))]: the distinct items, in the order of iteration *)
  set_iter : list pystr -> list pystr;
  set_iter_nodup : forall items, NoDup (set_iter items);
  set_iter_in : forall items x, In x (set_iter items) <-> In x items
}.

(** ** The Redis server, seen through the client *)

Inductive rvalue : Type :=
| RString (v : pystr)
| RHash (fields : list (pystr * pystr))
| RList (items : list pystr)
| RSet (members : list pystr)
| ROther (type_name : pystr).

Record entry : Type := {
  value : rvalue;
  (** remaining seconds, [None] when the key does not expire *)
  expire : option Z;
  (** reply of MEMORY USAGE *)
  usage : option Z
}.

(** How the connection test ends: with the reply, with the client's
    [ConnectionError] (no connection could be made), or with another
    exception; [held] tells whether that one came over an established
    connection, as when the server refuses the command. *)
Inductive ping_reply : Type :=
| Pong
| ConnectionFailed (details : pystr)
| OtherFailure (details : pystr) (held : bool).

(** A dictionary with string keys, in insertion order. *)
Definition dict (V : Type) := list (pystr * V).

Fixpoint dict_get {V} (d : dict V) (k : pystr) : option V :=
  match d with
  | [] => None
  | (k', v) :: d' => if pystr_eqb k' k then Some v else dict_get d' k
  end.

(** [d[k] = v] *)
Fixpoint dict_set {V} (d : dict V) (k : pystr) (v : V) : dict V :=
  match d with
  | [] => [(k, v)]
  | (k', v') :: d' =>
      if pystr_eqb k' k then (k', v) :: d' else (k', v') :: dict_set d' k v
  end.

(** [d.get(k, default)] *)
Definition dict_get_default {V} (d : dict V) (k : pystr) (default : V) : V :=
  match dict_get d k with Some v => v | None => default end.

Record server : Type := {
  ping : ping_reply;
  keyspace : dict entry;
  (** reply of KEYS for a pattern *)
  scan : pystr -> list pystr;
  (** reply of INFO for a section *)
  info : pystr -> dict Z
}.

Definition redis_exists (r : server) (k : pystr) : bool :=
  match dict_get (keyspace r) k with Some _ => true | None => false end.

Definition redis_type (r : server) (k : pystr) : pystr :=
  match dict_get (keyspace r) k with
  | None => lit "none"
  | Some e =>
      match value e with
      | RString _ => lit "string"
      | RHash _ => lit "hash"
      | RList _ => lit "list"
      | RSet _ => lit "set"
      | ROther t => t
      end
  end.

Definition redis_ttl (r : server) (k : pystr) : Z :=
  match dict_get (keyspace r) k with
  | None => -2
  | Some e => match expire e with None => -1 | Some s => s end
  end.

Definition redis_memory_usage (r : server) (k : pystr) : option Z :=
  match dict_get (keyspace r) k with
  | None => None
  | Some e => usage e
  end.

(** LRANGE: both ends inclusive, negative indexes count from the tail. *)
Definition lrange (items : list pystr) (start stop : Z) : list pystr :=
  let n := len items in
  let start := if start <? 0 then Z.max 0 (start + n) else start in
  let stop := if stop <? 0 then stop + n else stop in
  let stop := Z.min stop (n - 1) in
  if stop <? start then []
  else firstn (Z.to_nat (stop - start + 1)) (skipn (Z.to_nat start) items).

(** ** The process: output, client calls, connection *)

Inductive command : Type :=
| PING
| KEYS (pattern : pystr)
| EXISTS (key : pystr)
| TYPE (key : pystr)
| TTL (key : pystr)
| GET (key : pystr)
| HGETALL (key : pystr)
| LLEN (key : pystr)
| LRANGE (key : pystr) (start stop : Z)
| SMEMBERS (key : pystr)
| MEMORY_USAGE (key : pystr)
| INFO (section : pystr).

Record world : Type := {
  (** the lines written by [print], oldest first *)
  stdout : list pystr;
  (** the commands sent through the client, oldest first *)
  calls : list command;
  (** whether the client holds an open connection to the server *)
  connected : bool
}.

Definition initial_world : world :=
  {| stdout := []; calls := []; connected := false |}.

(** A computation that prints, talks to the server and may raise. *)
Definition M (A : Type) : Type := world -> result A * world.

Definition ret {A} (a : A) : M A := fun w => (Ok a, w).

Definition bind {A B} (m : M A) (k : A -> M B) : M B :=
  fun w =>
    match m w with
    | (Ok a, w') => k a w'
    | (Raise e, w') => (Raise e, w')
    end.

Definition raise {A} (e : exn) : M A := fun w => (Raise e, w).

Definition lift {A} (r : result A) : M A := fun w => (r, w).

Definition print (line : pystr) : M unit :=
  fun w => (Ok tt, {| stdout := stdout w ++ [line];
                       calls := calls w;
                       connected := connected w |}).

Definition send (c : command) : M unit :=
  fun w => (Ok tt, {| stdout := stdout w;
                       calls := calls w ++ [c];
                       connected := connected w |}).

(** The connection is established by the first successful command. *)
Definition established : M unit :=
  fun w => (Ok tt, {| stdout := stdout w;
                       calls := calls w;
                       connected := true |}).

(** [r.close()]: the client gives its connection back. *)
Definition close : M unit :=
  fun w => (Ok tt, {| stdout := stdout w;
                       calls := calls w;
                       connected := false |}).

Declare Scope prog_scope.
Delimit Scope prog_scope with prog.
Notation "x <- m ;; k" := (bind m (fun x => k))
  (at level 61, m at next level, right associativity) : prog_scope.
Notation "m ;; k" := (bind m (fun _ => k))
  (at level 61, right associativity) : prog_scope.
Open Scope prog_scope.

(** [for x in l: body] *)
Fixpoint for_each {A} (l : list A) (body : A -> M unit) : M unit :=
  match l with
  | [] => ret tt
  | x :: l' => body x ;; for_each l' body
  end.

(** [enumerate(l, start)] *)
Fixpoint enumerate {A} (start : Z) (l : list A) : list (Z * A) :=
  match l with
  | [] => []
  | x :: l' => (start, x) :: enumerate (start + 1) l'
  end.

(** *** The client methods used by the tool *)

Definition r_keys (r : server) (pattern : pystr) : M (list pystr) :=
  send (KEYS pattern) ;; ret (scan r pattern).

Definition r_exists (r : server) (k : pystr) : M bool :=
  send (EXISTS k) ;; ret (redis_exists r k).

Definition r_type (r : server) (k : pystr) : M pystr :=
  send (TYPE k) ;; ret (redis_type r k).

Definition r_ttl (r : server) (k : pystr) : M Z :=
  send (TTL k) ;; ret (redis_ttl r k).

Definition r_memory_usage (r : server) (k : pystr) : M (option Z) :=
  send (MEMORY_USAGE k) ;; ret (redis_memory_usage r k).

Definition r_info (r : server) (section : pystr) : M (dict Z) :=
  send (INFO section) ;; ret (info r section).

(** The typed reads answer for a missing key as Redis does and raise on a
    key of another type. *)
Definition r_get (r : server) (k : pystr) : M (option pystr) :=
  send (GET k) ;;
  match dict_get (keyspace r) k with
  | None => ret None
  | Some e =>
      match value e with
      | RString v => ret (Some v)
      | _ => raise ResponseError
      end
  end.

Definition r_hgetall (r : server) (k : pystr) : M (dict pystr) :=
  send (HGETALL k) ;;
  match dict_get (keyspace r) k with
  | None => ret []
  | Some e =>
      match value e with
      | RHash fields => ret fields
      | _ => raise ResponseError
      end
  end.

Definition r_llen (r : server) (k : pystr) : M Z :=
  send (LLEN k) ;;
  match dict_get (keyspace r) k with
  | None => ret 0
  | Some e =>
      match value e with
      | RList items => ret (len items)
      | _ => raise ResponseError
      end
  end.

Definition r_lrange (r : server) (k : pystr) (start stop : Z)
  : M (list pystr) :=
  send (LRANGE k start stop) ;;
  match dict_get (keyspace r) k with
  | None => ret []
  | Some e =>
      match value e with
      | RList items => ret (lrange items start stop)
      | _ => raise ResponseError
      end
  end.

(** The client returns the members as a [set]: the tool sees its size and
    its order of iteration. *)
Definition r_smembers {Py : Interpreter} (r : server) (k : pystr)
  : M (list pystr) :=
  send (SMEMBERS k) ;;
  match dict_get (keyspace r) k with
  | None => ret []
  | Some e =>
      match value e with
      | RSet members => ret (set_iter members)
      | _ => raise ResponseError
      end
  end.

(** ** [inspect_key] *)

Definition newline : pystr := [10%N].

Section Inspector.
Context {J : JsonLib} {Py : Interpreter}.

(** The [try: json.loads ... except: ...[:200]] rendering shared by the
    hash and list branches. *)
Definition render_item (label value : pystr) : M unit :=
  match json_loads value with
  | Some parsed => print (label ++ json_dumps parsed 4)
  | None => print (label ++ slice_to 200 value)
  end.

Definition inspect_string (r : server) (full_key : pystr) : M unit :=
  got <- r_get r full_key ;;
  match got with
  | None =>
      (* [json.loads(None)] raises inside the [try], the slice outside *)
      print (lit "Value (raw, first 500 chars):") ;;
      raise TypeError
  | Some value =>
      match json_loads value with
      | Some parsed =>
          print (lit "Value (JSON):") ;;
          print (json_dumps parsed 2)
      | None =>
          print (lit "Value (raw, first 500 chars):") ;;
          print (slice_to 500 value) ;;
          if 500 <? len value then
            print (lit "... (" ++ str_of_int (len value - 500) ++
                   lit " more characters)")
          else ret tt
      end ;;
      size <- lift (format_bytes (len (utf8_encode value))) ;;
      print (lit "Size: " ++ size)
  end.

Definition inspect_hash (r : server) (full_key : pystr) : M unit :=
  fields <- r_hgetall r full_key ;;
  print (lit "Hash fields (" ++ str_of_int (len fields) ++ lit "):") ;;
  for_each (slice_to 10 fields)
    (fun '(field, value) =>
       render_item (lit "  " ++ field ++ lit ": ") value) ;;
  if 10 <? len fields then
    print (lit "  ... and " ++ str_of_int (len fields - 10) ++
           lit " more fields")
  else ret tt.

Definition inspect_list (r : server) (full_key : pystr) : M unit :=
  length <- r_llen r full_key ;;
  print (lit "List length: " ++ str_of_int length) ;;
  items <- r_lrange r full_key 0 4 ;;
  print (lit "First 5 items:") ;;
  for_each (enumerate 0 items)
    (fun '(i, item) =>
       render_item (lit "  [" ++ str_of_int i ++ lit "]: ") item).

Definition inspect_set (r : server) (full_key : pystr) : M unit :=
  members <- r_smembers r full_key ;;
  print (lit "Set members (" ++ str_of_int (len members) ++ lit "):") ;;
  for_each (slice_to 10 members)
    (fun member => print (lit "  - " ++ member)) ;;
  if 10 <? len members then
    print (lit "  ... and " ++ str_of_int (len members - 10) ++
           lit " more members")
  else ret tt.

Definition full_key_of (key namespace : pystr) : pystr :=
  if negb (startswith key namespace) then namespace ++ lit ":" ++ key
  else key.

Definition inspect_key (r : server) (key namespace : pystr) : M unit :=
  let full_key := full_key_of key namespace in
  found <- r_exists r full_key ;;
  if negb found then
    print (lit "Key '" ++ full_key ++ lit "' does not exist")
  else
    key_type <- r_type r full_key ;;
    ttl <- r_ttl r full_key ;;
    print (newline ++ repeat_char "=" 60) ;;
    print (lit "Key: " ++ full_key) ;;
    print (lit "Type: " ++ key_type) ;;
    shown <- lift (format_ttl ttl) ;;
    print (lit "TTL: " ++ shown) ;;
    if pystr_eqb key_type (lit "string") then inspect_string r full_key
    else if pystr_eqb key_type (lit "hash") then inspect_hash r full_key
    else if pystr_eqb key_type (lit "list") then inspect_list r full_key
    else if pystr_eqb key_type (lit "set") then inspect_set r full_key
    else ret tt.

End Inspector.

(** ** [load_env_file] *)

(** [c.isspace()] for one character. *)
Definition is_space (c : char) : bool :=
  (((9 <=? c) && (c <=? 13)) || ((28 <=? c) && (c <=? 32)) ||
   (c =? 133) || (c =? 160) || (c =? 5760) ||
   ((8192 <=? c) && (c <=? 8202)) || (c =? 8232) || (c =? 8233) ||
   (c =? 8239) || (c =? 8287) || (c =? 12288))%N.

(** [s.lstrip()], [s.rstrip()] and [s.strip()] *)
Fixpoint lstrip (s : pystr) : pystr :=
  match s with
  | [] => []
  | c :: t => if is_space c then lstrip t else s
  end.

Definition rstrip (s : pystr) : pystr := rev (lstrip (rev s)).

Definition strip (s : pystr) : pystr := rstrip (lstrip s).

(** What [os.environ] accepts in a name or a value on a POSIX system: no
    NUL and nothing the file-system encoding rejects (a surrogate outside
    U+DC80..U+DCFF). *)
Definition encodable (s : pystr) : bool :=
  forallb (fun c =>
             negb (c =? 0)%N &&
             negb (((55296 <=? c) && (c <=? 57343))%N &&
                   negb ((56448 <=? c) && (c <=? 56575))%N)) s.

(** [os.environ[name] = value]: [None] stands for the exception raised for
    an empty name or a string that cannot be encoded. *)
Definition environ_set (os_environ : dict pystr) (name value : pystr)
  : option (dict pystr) :=
  match name with
  | [] => None
  | _ => if encodable name && encodable value
         then Some (dict_set os_environ name value)
         else None
  end.

(** The assignment a line of the file makes, if it makes one: the body of
    the loop up to the write. *)
Definition env_assignment (line : pystr) : option (pystr * pystr) :=
  let line := strip line in
  match line with
  | [] => None
  | _ =>
      if negb (startswith line (lit "#")) && contains line (lit "=") then
        match split1 line (lit "=") with
        | [key; value] => Some (strip key, strip value)
        | _ => None
        end
      else None
  end.

(** The loop [for line in f]; [None] when an assignment raises. *)
Fixpoint load_env_lines (lines : list pystr) (os_environ : dict pystr)
  : option (dict pystr) :=
  match lines with
  | [] => Some os_environ
  | line :: rest =>
      match env_assignment line with
      | Some (key, value) =>
          match environ_set os_environ key value with
          | Some os_environ' => load_env_lines rest os_environ'
          | None => None
          end
      | None => load_env_lines rest os_environ
      end
  end.

(** [file] holds the lines of [.env] as the iteration over the file yields
    them, [None] when the file does not exist; the result is [os.environ]
    afterwards. *)
Definition load_env_file (file : option (list pystr))
  (os_environ : dict pystr) : option (dict pystr) :=
  match file with
  | Some lines => load_env_lines lines os_environ
  | None => Some os_environ
  end.

(** ** [connect_redis] *)

(** What a run starts from: the lines of the [.env] file next to the
    script, as the iteration over the file yields them ([None] when there
    is no such file), and the environment the process inherits. *)
Record startup : Type := {
  dotenv : option (list pystr);
  inherited : dict pystr
}.

(** [os.environ] at the four names the tool reads, [REDIS_PORT] as the
    integer that [int(...)] returns: the settings the client is built
    from. *)
Record environ : Type := {
  REDIS_HOST : option pystr;
  REDIS_PORT : option Z;
  REDIS_PASSWORD : option pystr;
  REDIS_NAMESPACE : option pystr
}.

Definition getenv {A} (v : option A) (default : A) : A :=
  match v with Some a => a | None => default end.

Definition env_host (env : environ) : pystr :=
  getenv (REDIS_HOST env) (lit "localhost").
Definition env_port (env : environ) : Z :=
  getenv (REDIS_PORT env) 6379.
Definition env_namespace (env : environ) : pystr :=
  getenv (REDIS_NAMESPACE env) (lit "litellm").

(** [load_env_file()] and the four reads of [os.environ] that follow it,
    before the [try]: an assignment that [os.environ] refuses and a port
    that [int] cannot read end the run there. *)
Definition settings {Py : Interpreter} (s : startup) : result environ :=
  match load_env_file (dotenv s) (inherited s) with
  | None => Raise EnvironError
  | Some os_environ =>
      (let? port :=
         match dict_get os_environ (lit "REDIS_PORT") with
         | Some text =>
             match int_of_str text with
             | Some port => Ok (Some port)
             | None => Raise ValueError
             end
         | None => Ok None
         end in
       Ok {| REDIS_HOST := dict_get os_environ (lit "REDIS_HOST");
             REDIS_PORT := port;
             REDIS_PASSWORD := dict_get os_environ (lit "REDIS_PASSWORD");
             REDIS_NAMESPACE :=
               dict_get os_environ (lit "REDIS_NAMESPACE") |})%result
  end.

(** Returns the client and the namespace; the client is the [server] it
    talks to, together with the settings it was built from. *)
Definition connect_redis {Py : Interpreter} (s : startup) (r : server)
  : M (environ * pystr) :=
  env <- lift (settings s) ;;
  let host := env_host env in
  let port := env_port env in
  let namespace := env_namespace env in
  send PING ;;
  match ping r with
  | Pong => established ;; ret (env, namespace)
  | ConnectionFailed e =>
      print (lit "Error: Cannot connect to Redis at " ++ host ++ lit ":" ++
             str_of_int port) ;;
      print (lit "Details: " ++ e) ;;
      raise (SystemExit 1)
  | OtherFailure e held =>
      (if held then established else ret tt) ;;
      print (lit "Error connecting to Redis: " ++ e) ;;
      raise (SystemExit 1)
  end.

(** ** [main] *)

(** *** Grouping keys by prefix *)

(** [key.replace(f"{namespace}:", "", 1)] *)
Definition key_without_ns (namespace key : pystr) : pystr :=
  replace1 key (namespace ++ lit ":") [].

(** [parts[0] if len(parts) > 0 else "unknown"] *)
Definition prefix_of (namespace key : pystr) : pystr :=
  let parts := split1 (key_without_ns namespace key) (lit ":") in
  if 0 <? len parts then nth 0 parts [] else lit "unknown".

(** One turn of the loop [for key in keys]. *)
Definition add_key (namespace : pystr) (key_groups : dict (list pystr))
  (key : pystr) : dict (list pystr) :=
  let prefix := prefix_of namespace key in
  let key_groups :=
    match dict_get key_groups prefix with
    | None => dict_set key_groups prefix []
    | Some _ => key_groups
    end in
  dict_set key_groups prefix (dict_get_default key_groups prefix [] ++ [key]).

Definition key_groups (namespace : pystr) (keys : list pystr)
  : dict (list pystr) :=
  fold_left (add_key namespace) keys [].

(** Order of [str]: lexicographic on code points. *)
Fixpoint pystr_ltb (a b : pystr) : bool :=
  match a, b with
  | _, [] => false
  | [], _ :: _ => true
  | x :: a', y :: b' =>
      if (x <? y)%N then true
      else if (y <? x)%N then false
      else pystr_ltb a' b'
  end.

(** [sorted(d.items())]; the keys of a dictionary are distinct, so the
    order of the pairs is the order of their keys. *)
Fixpoint insert_item {V} (kv : pystr * V) (l : list (pystr * V))
  : list (pystr * V) :=
  match l with
  | [] => [kv]
  | kv' :: l' =>
      if pystr_ltb (fst kv) (fst kv') then kv :: l
      else kv' :: insert_item kv l'
  end.

Definition sorted_items {V} (d : dict V) : list (pystr * V) :=
  fold_right insert_item [] d.

(** *** Cache statistics *)

(** [(hits / total * 100) if total > 0 else 0] *)
Definition hit_rate (hits misses : Z) : result pynum :=
  let total := hits + misses in
  if 0 <? total then
    (let? q := int_truediv hits total in
     Ok (PFloat (fmul q (flt 100))))%result
  else Ok (PInt 0).

Section Driver.
Context {J : JsonLib} {Py : Interpreter}.

Definition banner (env : environ) (namespace : pystr) : M unit :=
  print (repeat_char "=" 60) ;;
  print (lit "Redis Inspection for LiteLLM Proxy") ;;
  print (repeat_char "=" 60) ;;
  print (lit "Host: " ++ env_host env) ;;
  print (lit "Port: " ++ str_of_int (env_port env)) ;;
  print (lit "Namespace: " ++ namespace) ;;
  print (repeat_char "=" 60) ;;
  print [].

Definition keys_by_type (namespace : pystr) (keys : list pystr) : M unit :=
  print (lit "Keys by type:") ;;
  for_each (sorted_items (key_groups namespace keys))
    (fun '(prefix, group_keys) =>
       print (lit "  " ++ prefix ++ lit ": " ++
              str_of_int (len group_keys) ++ lit " keys")) ;;
  print [].

Definition sample_keys (r : server) (keys : list pystr) : M unit :=
  print (lit "Sample keys (first 10):") ;;
  for_each (enumerate 1 (slice_to 10 keys))
    (fun '(i, key) =>
       key_type <- r_type r key ;;
       ttl <- r_ttl r key ;;
       size <- r_memory_usage r key ;;
       print (lit "  " ++ str_of_int i ++ lit ". " ++ key) ;;
       shown <- lift (format_ttl ttl) ;;
       print (lit "     Type: " ++ key_type ++ lit ", TTL: " ++ shown) ;;
       match size with
       | Some n =>
           if n =? 0 then ret tt
           else
             shown <- lift (format_bytes n) ;;
             print (lit "     Size: " ++ shown)
       | None => ret tt
       end) ;;
  (if 10 <? len keys then
     print (lit "  ... and " ++ str_of_int (len keys - 10) ++
            lit " more keys")
   else ret tt) ;;
  print [].

Definition memory_statistics (r : server) : M unit :=
  info <- r_info r (lit "memory") ;;
  print (lit "Memory Statistics:") ;;
  used <- lift (format_bytes
                  (dict_get_default info (lit "used_memory") 0)) ;;
  print (lit "  Used memory: " ++ used) ;;
  peak <- lift (format_bytes
                  (dict_get_default info (lit "used_memory_peak") 0)) ;;
  print (lit "  Peak memory: " ++ peak) ;;
  match dict_get info (lit "maxmemory") with
  | Some maxmemory =>
      if 0 <? maxmemory then
        limit <- lift (format_bytes maxmemory) ;;
        print (lit "  Max memory: " ++ limit) ;;
        q <- lift (int_truediv
                     (dict_get_default info (lit "used_memory") 0)
                     maxmemory) ;;
        let used_pct := fmul q (flt 100) in
        print (lit "  Usage: " ++ format_2f used_pct ++ lit "%")
      else ret tt
  | None => ret tt
  end ;;
  print [].

Definition cache_statistics (r : server) : M unit :=
  stats <- r_info r (lit "stats") ;;
  let hits := dict_get_default stats (lit "keyspace_hits") 0 in
  let misses := dict_get_default stats (lit "keyspace_misses") 0 in
  rate <- lift (hit_rate hits misses) ;;
  print (lit "Cache Statistics:") ;;
  print (lit "  Cache hits: " ++ format_commas hits) ;;
  print (lit "  Cache misses: " ++ format_commas misses) ;;
  shown <- lift (format_2f_num rate) ;;
  print (lit "  Hit rate: " ++ shown ++ lit "%") ;;
  print (lit "  Total commands: " ++
         format_commas
           (dict_get_default stats (lit "total_commands_processed") 0)) ;;
  print [].

Definition usage_hint (env : environ) (argv0 namespace : pystr) : M unit :=
  print (repeat_char "=" 60) ;;
  print (lit "Usage:") ;;
  print (lit "  " ++ argv0 ++ lit "                    # Show overview") ;;
  print (lit "  " ++ argv0 ++
         lit " <key_name>         # Inspect specific key") ;;
  print [] ;;
  print (lit "Examples:") ;;
  print (lit "  " ++ argv0 ++
         lit " completion:abc123   # Inspect a completion cache key") ;;
  print (lit "  " ++ argv0 ++
         lit " embedding:xyz789  # Inspect an embedding cache key") ;;
  print [] ;;
  print (lit "To see all keys, use:") ;;
  print (lit "  redis-cli -h " ++ env_host env ++ lit " -p " ++
         str_of_int (env_port env) ++ lit " KEYS '" ++ namespace ++
         lit ":*'").

(** [sys.argv] is [argv0 :: args]. *)
Definition main (s : startup) (argv0 : pystr) (args : list pystr)
  (r : server) : M unit :=
  client <- connect_redis s r ;;
  let '(env, namespace) := client in
  banner env namespace ;;
  keys <- r_keys r (namespace ++ lit ":*") ;;
  print (lit "Found " ++ str_of_int (len keys) ++
         lit " keys with namespace '" ++ namespace ++ lit "'") ;;
  print [] ;;
  if len keys =? 0 then print (lit "No cached data found.")
  else
    keys_by_type namespace keys ;;
    sample_keys r keys ;;
    memory_statistics r ;;
    cache_statistics r ;;
    match args with
    | key_to_inspect :: _ => inspect_key r key_to_inspect namespace
    | [] => usage_hint env argv0 namespace
    end.

(** One run of the script from a fresh process. *)
Definition run (s : startup) (argv0 : pystr) (args : list pystr)
  (r : server) : result unit * world :=
  main s argv0 args r initial_world.

End Driver.

(** The exit status the interpreter reports. *)
Definition exit_code (res : result unit) : Z :=
  match res with
  | Ok _ => 0
  | Raise (SystemExit code) => code
  | Raise _ => 1
  end.

(** ** Definitions used to state the properties *)

(** [v >= c], the test of "while the remaining value is at least 1024". *)
Definition num_ge_const (v : pynum) (c : Z) : bool :=
  match v with
  | PInt z => c <=? z
  | PFloat x => SFleb (flt c) x
  end.

Definition unit_names : list pystr :=
  [lit "B"; lit "KB"; lit "MB"; lit "GB"; lit "TB"].

(** The scaling as the specification words it: while the value is at least
    1024 and a larger unit is left ([room] counts them), divide the value by
    1024 and move to the next unit. *)
Fixpoint scale_down (room : nat) (v : pynum) (unit : nat)
  : result (pynum * nat) :=
  match room with
  | O => Ok (v, unit)
  | S room' =>
      if num_ge_const v 1024 then
        (let? x := num_div_const v 1024 in
         scale_down room' (PFloat x) (S unit))%result
      else Ok (v, unit)
  end.

(** Two decimal places and the unit suffix. *)
Definition format_bytes_spec (n : Z) : result pystr :=
  (let? vu := scale_down 4 (PInt n) 0 in
   let? shown := format_2f_num (fst vu) in
   Ok (shown ++ lit " " ++ nth (snd vu) unit_names []))%result.

(** What a stretch of the program adds to the process: lines on the
    output and commands to the server; the connection is not touched. *)
Definition emit (lines : list pystr) (cmds : list command) (w : world)
  : world :=
  {| stdout := stdout w ++ lines;
     calls := calls w ++ cmds;
     connected := connected w |}.

(** The process once the client holds a connection. *)
Definition opened (w : world) : world :=
  {| stdout := stdout w; calls := calls w; connected := true |}.

(** The key a command is about. *)
Definition command_key (c : command) : option pystr :=
  match c with
  | PING | KEYS _ | INFO _ => None
  | EXISTS k | TYPE k | TTL k | GET k | HGETALL k | LLEN k
  | LRANGE k _ _ | SMEMBERS k | MEMORY_USAGE k => Some k
  end.

(** A computation that only prints and sends commands that satisfy [P]. *)
Definition querying (P : command -> Prop) {A} (m : M A) : Prop :=
  forall w, exists lines cmds,
    snd (m w) = emit lines cmds w /\ Forall P cmds.

(** A computation that only prints and queries. *)
Definition steady {A} (m : M A) : Prop := querying (fun _ => True) m.

(** Whether a line was printed. *)
Definition printed (line : pystr) (w : world) : bool :=
  existsb (pystr_eqb line) (stdout w).

(** The four header lines of [inspect_key]. *)
Definition header_lines (full_key key_type shown_ttl : pystr)
  : list pystr :=
  [newline ++ repeat_char "=" 60;
   lit "Key: " ++ full_key;
   lit "Type: " ++ key_type;
   lit "TTL: " ++ shown_ttl].

Section Texts.
Context {J : JsonLib} {Py : Interpreter}.

(** The line for one hash field or list element. *)
Definition item_text (label value : pystr) : pystr :=
  match json_loads value with
  | Some parsed => label ++ json_dumps parsed 4
  | None => label ++ slice_to 200 value
  end.


(** The lines for a list key: its length and the preview. *)
Definition list_lines (items : list pystr) : list pystr :=
  [lit "List length: " ++ str_of_int (len items); lit "First 5 items:"] ++
  map (fun '(i, item) =>
         item_text (lit "  [" ++ str_of_int i ++ lit "]: ") item)
      (enumerate 0 (slice_to 5 items)).

(** The branch taken by [inspect_key] on the reported type. *)
Definition dispatch (r : server) (full_key key_type : pystr) : M unit :=
  if pystr_eqb key_type (lit "string") then inspect_string r full_key
  else if pystr_eqb key_type (lit "hash") then inspect_hash r full_key
  else if pystr_eqb key_type (lit "list") then inspect_list r full_key
  else if pystr_eqb key_type (lit "set") then inspect_set r full_key
  else ret tt.

(** The four sections of the overview report. *)
Definition overview_sections (r : server) (namespace : pystr)
  (keys : list pystr) : M unit :=
  keys_by_type namespace keys ;;
  sample_keys r keys ;;
  memory_statistics r ;;
  cache_statistics r.

End Texts.



(** Whether the connection test leaves a connection to the server. *)
Definition established_by (reply : ping_reply) : bool :=
  match reply with
  | Pong => true
  | ConnectionFailed _ => false
  | OtherFailure _ held => held
  end.

(** The lines of the usage hint. *)
Definition usage_lines (env : environ) (argv0 namespace : pystr)
  : list pystr :=
  [repeat_char "=" 60;
   lit "Usage:";
   lit "  " ++ argv0 ++ lit "                    # Show overview";
   lit "  " ++ argv0 ++ lit " <key_name>         # Inspect specific key";
   [];
   lit "Examples:";
   lit "  " ++ argv0 ++
     lit " completion:abc123   # Inspect a completion cache key";
   lit "  " ++ argv0 ++
     lit " embedding:xyz789  # Inspect an embedding cache key";
   [];
   lit "To see all keys, use:";
   lit "  redis-cli -h " ++ env_host env ++ lit " -p " ++
     str_of_int (env_port env) ++ lit " KEYS '" ++ namespace ++ lit ":*'"].

(** The lines of the banner. *)
Definition banner_lines (env : environ) (namespace : pystr) : list pystr :=
  [repeat_char "=" 60;
   lit "Redis Inspection for LiteLLM Proxy";
   repeat_char "=" 60;
   lit "Host: " ++ env_host env;
   lit "Port: " ++ str_of_int (env_port env);
   lit "Namespace: " ++ namespace;
   repeat_char "=" 60;
   []].

(** *** Example data *)

(** The decoder restricted to integer literals, for the examples. *)
Definition is_digit (c : char) : bool := ((48 <=? c) && (c <=? 57))%N.

Fixpoint digits_value (acc : Z) (s : pystr) : option Z :=
  match s with
  | [] => Some acc
  | c :: t =>
      if is_digit c then digits_value (10 * acc + Z.of_N (c - 48)) t
      else None
  end.

Definition natural_literal (s : pystr) : option Z :=
  match s with
  | [] => None
  | 48%N :: _ :: _ => None
  | _ => digits_value 0 s
  end.

Definition integer_literal (s : pystr) : option Z :=
  match s with
  | 45%N :: d => option_map Z.opp (natural_literal d)
  | _ => natural_literal s
  end.

#[local] Instance json_integers : JsonLib := {|
  json := Z;
  json_loads := integer_literal;
  json_dumps := fun z _ => str_of_int z
|}.

(** An interpreter for the examples: [int] reads the literals above and a
    set is iterated from the last of its distinct members to the first. *)
#[local] Instance example_interpreter : Interpreter.
Proof.
  refine {| int_of_str := integer_literal;
            set_iter := fun items =>
              rev (nodup (list_eq_dec N.eq_dec) items) |}.
  - intros items. apply NoDup_rev, NoDup_nodup.
  - intros items x. rewrite <- in_rev. apply nodup_In.
Defined.

(** A process that inherits the namespace ["old"] and finds a [.env] file
    that sets it to ["ns"]; the settings it loads are [example_env]. *)
Definition example_startup : startup :=
  {| dotenv := Some [lit "# cache" ++ [10%N];
                     lit "REDIS_NAMESPACE = ns" ++ [10%N]];
     inherited := [(lit "REDIS_NAMESPACE", lit "old")] |}.

Definition example_env : environ :=
  {| REDIS_HOST := None; REDIS_PORT := None; REDIS_PASSWORD := None;
     REDIS_NAMESPACE := Some (lit "ns") |}.

Definition example_entry (v : rvalue) : entry :=
  {| value := v; expire := Some 90; usage := Some 1536 |}.

Definition example_keys : list pystr :=
  [lit "ns:completion:x1"; lit "ns:completion:x2"; lit "ns:embedding:y1";
   lit "ns:queue"].

Definition seven_items : list pystr :=
  [lit "a"; lit "b"; lit "c"; lit "d"; lit "e"; lit "f"; lit "g"].

Definition example_server : server :=
  {| ping := Pong;
     keyspace :=
       [(lit "ns:completion:x1", example_entry (RString (lit "hello")));
        (lit "ns:completion:x2", example_entry (RString (lit "42")));
        (lit "ns:embedding:y1",
         example_entry (RHash [(lit "dim", lit "3")]));
        (lit "ns:queue", example_entry (RList seven_items))];
     scan := fun pattern =>
       if pystr_eqb pattern (lit "ns:*") then example_keys else [];
     info := fun section =>
       if pystr_eqb section (lit "memory") then
         [(lit "used_memory", 1048576); (lit "used_memory_peak", 2097152);
          (lit "maxmemory", 0)]
       else
         [(lit "keyspace_hits", 3); (lit "keyspace_misses", 1);
          (lit "total_commands_processed", 1234567)] |}.

(** A server without any key. *)
Definition empty_server : server :=
  {| ping := Pong; keyspace := []; scan := fun _ => [];
     info := fun _ => [] |}.

(** A server that cannot be reached. *)
Definition unreachable_server : server :=
  {| ping := ConnectionFailed (lit "Connection refused");
     keyspace := []; scan := fun _ => []; info := fun _ => [] |}.

(** A namespace that the KEYS pattern reads as a glob: ["*s:*"] matches the
    key ["x*s:foo"], which does not begin with ["*s:"]. *)
Definition glob_env : environ :=
  {| REDIS_HOST := None; REDIS_PORT := None; REDIS_PASSWORD := None;
     REDIS_NAMESPACE := Some (lit "*s") |}.

Definition glob_server : server :=
  {| ping := Pong;
     keyspace := [(lit "x*s:foo", example_entry (RString (lit "v")))];
     scan := fun pattern =>
       if pystr_eqb pattern (lit "*s:*") then [lit "x*s:foo"] else [];
     info := fun _ => [] |}.

(** A server whose namespace holds the single key ["ns:"]. *)
Definition bare_server : server :=
  {| ping := Pong;
     keyspace := [(lit "ns:", example_entry (RString (lit "v")))];
     scan := fun pattern =>
       if pystr_eqb pattern (lit "ns:*") then [lit "ns:"] else [];
     info := fun _ => [] |}.


(** A server with a key that expires in 10^14 seconds. *)
Definition lasting_server : server :=
  {| ping := Pong;
     keyspace :=
       [(lit "ns:doc",
         {| value := RString (lit "hello"); expire := Some (10 ^ 14);
            usage := Some 1536 |})];
     scan := fun pattern =>
       if pystr_eqb pattern (lit "ns:*") then [lit "ns:doc"] else [];
     info := fun _ => [] |}.

(** A server that refuses the connection test over the connection it has
    accepted. *)
Definition refusing_server : server :=
  {| ping := OtherFailure (lit "unknown command 'PING'") true;
     keyspace := []; scan := fun _ => []; info := fun _ => [] |}.

Definition script : pystr := lit "inspect_redis.py".

(** The text of [format_ttl] for a duration of [secs] seconds. *)
Definition ttl_text (ttl : Z) (secs : float) : pystr :=
  str_of_int ttl ++ lit " seconds (" ++
  format_2f (fdiv secs (flt 3600)) ++ lit " hours)".

(** ** Further definitions used to state the properties *)

(** Whether [key] falls in the category [prefix]. *)
Definition has_prefix (namespace prefix key : pystr) : bool :=
  pystr_eqb (prefix_of namespace key) prefix.

(** The line of the breakdown for one category. *)
Definition category_line (item : pystr * list pystr) : pystr :=
  lit "  " ++ fst item ++ lit ": " ++ str_of_int (len (snd item)) ++
  lit " keys".

(** The order of two items of a dictionary: the order of their keys. *)
Definition item_lt {V} (a b : pystr * V) : Prop :=
  pystr_ltb (fst a) (fst b) = true.

Section MoreTexts.
Context {J : JsonLib}.


End MoreTexts.

(** The lines for a set key. *)
Definition set_lines (members : list pystr) : list pystr :=
  [lit "Set members (" ++ str_of_int (len members) ++ lit "):"] ++
  map (fun member => lit "  - " ++ member) (slice_to 10 members) ++
  (if 10 <? len members then
     [lit "  ... and " ++ str_of_int (len members - 10) ++
      lit " more members"]
   else []).

(** The type names the inspector has a branch for. *)
Definition known_type (t : pystr) : bool :=
  pystr_eqb t (lit "string") || pystr_eqb t (lit "hash") ||
  pystr_eqb t (lit "list") || pystr_eqb t (lit "set").

(** A key of another type (sorted set, stream, ...) reports another name
    than those of the four types the snapshot holds values for. *)
Definition typed_entry (e : entry) : bool :=
  match value e with
  | ROther t => negb (known_type t)
  | _ => true
  end.

Definition well_typed (r : server) : bool :=
  forallb (fun kv => typed_entry (snd kv)) (keyspace r).

(** The exceptions [m] can raise all satisfy [P]. *)
Definition raises_only (P : exn -> Prop) {A} (m : M A) : Prop :=
  forall (w : world) (e : exn), fst (m w) = Raise e -> P e.

(** A computation whose only exception is [OverflowError]. *)
Definition only_overflow {A} (m : M A) : Prop :=
  raises_only (fun e => e = OverflowError) m.

(** The commands of the sampling loop: the three queries about one of the
    first ten keys. *)
Definition samples (keys : list pystr) (c : command) : Prop :=
  exists k, In k (slice_to 10 keys) /\
            (c = TYPE k \/ c = TTL k \/ c = MEMORY_USAGE k).

(** The commands a run may send: the connection test, the scan of the
    namespace, the three queries about a sampled key, the two INFO
    sections and the queries about the key of the command line. *)
Definition run_command (env : environ) (args : list pystr) (r : server)
  (c : command) : Prop :=
  let namespace := env_namespace env in
  c = PING \/
  c = KEYS (namespace ++ lit ":*") \/
  samples (scan r (namespace ++ lit ":*")) c \/
  c = INFO (lit "memory") \/
  c = INFO (lit "stats") \/
  match args with
  | key :: _ => command_key c = Some (full_key_of key namespace)
  | [] => False
  end.

(** What [connect_redis] prints when the connection test fails. *)
Definition failure_lines (env : environ) (reply : ping_reply)
  : list pystr :=
  match reply with
  | Pong => []
  | ConnectionFailed details =>
      [lit "Error: Cannot connect to Redis at " ++ env_host env ++
       lit ":" ++ str_of_int (env_port env);
       lit "Details: " ++ details]
  | OtherFailure details _ =>
      [lit "Error connecting to Redis: " ++ details]
  end.

(** The lines of the memory section once the two sizes are formatted. *)
Definition memory_heading (used_text peak_text : pystr) : list pystr :=
  [lit "Memory Statistics:";
   lit "  Used memory: " ++ used_text;
   lit "  Peak memory: " ++ peak_text].

(** *** Further example data *)

Definition twelve_members : list pystr :=
  map lit ["a"; "b"; "c"; "d"; "e"; "f"; "g"; "h"; "i"; "j"; "k"; "l"]%string.



(** A server with a set, a sorted set and a memory limit. *)
Definition limited_server : server :=
  {| ping := Pong;
     keyspace :=
       [(lit "ns:tags", example_entry (RSet twelve_members));
        (lit "ns:board", example_entry (ROther (lit "zset")))];
     scan := fun pattern =>
       if pystr_eqb pattern (lit "ns:*")
       then [lit "ns:tags"; lit "ns:board"] else [];
     info := fun section =>
       if pystr_eqb section (lit "memory") then
         [(lit "used_memory", 1048576); (lit "used_memory_peak", 2097152);
          (lit "maxmemory", 4194304)]
       else [] |}.

(** The example server, reporting a memory use beyond every float. *)
Definition overflow_server : server :=
  {| ping := Pong;
     keyspace := keyspace example_server;
     scan := scan example_server;
     info := fun section =>
       if pystr_eqb section (lit "memory")
       then [(lit "used_memory", 2 ^ 1024)] else [] |}.

(** Lines of an environment file. *)
Definition host_line : pystr := lit "REDIS_HOST=cache" ++ newline.
Definition comment_line : pystr := lit "# local settings" ++ newline.
Definition port_line : pystr := lit "REDIS_PORT = 6380" ++ newline.
Definition nameless_line : pystr := lit "=6380" ++ newline.

(** * Properties *)

(** ** Floats *)

Lemma shr_1_nonneg (mrs : shr_record) :
  0 <= shr_m mrs -> 0 <= shr_m (shr_1 mrs).
Proof.
  destruct mrs as [m r s]; simpl.
  destruct m as [|p|p]; simpl; try lia;
    destruct p; simpl; lia.
Qed.

Lemma iter_pos_shr_1_nonneg (p : positive) :
  forall mrs, 0 <= shr_m mrs -> 0 <= shr_m (iter_pos shr_1 p mrs).
Proof.
  induction p as [p IH|p IH|]; intros mrs H; simpl.
  - apply IH, IH, shr_1_nonneg, H.
  - apply IH, IH, H.
  - apply shr_1_nonneg, H.
Qed.

Lemma shr_record_of_loc_m (m : Z) (l : location) :
  shr_m (shr_record_of_loc m l) = m.
Proof. destruct l as [|[]]; reflexivity. Qed.

Lemma shr_fexp_nonneg (p e : Z) (m ex : Z) (l : location) :
  0 <= m -> 0 <= shr_m (fst (shr_fexp p e m ex l)).
Proof.
  intros H. unfold shr_fexp, shr.
  destruct (fexp p e (Zdigits2 m + ex) - ex) as [|q|q]; simpl;
    try (rewrite shr_record_of_loc_m; exact H).
  apply iter_pos_shr_1_nonneg. rewrite shr_record_of_loc_m. exact H.
Qed.

Lemma round_nearest_even_nonneg (m : Z) (l : location) :
  0 <= m -> 0 <= round_nearest_even m l.
Proof.
  intros H. destruct l as [|[]]; simpl; try lia.
  destruct (Z.even m); lia.
Qed.

(** Rounding a non-negative mantissa never yields NaN. *)
Lemma binary_round_aux_not_nan (p e : Z) (sx : bool) (mx ex : Z)
  (lx : location) :
  0 <= mx -> binary_round_aux p e sx mx ex lx <> S754_nan.
Proof.
  intros H. unfold binary_round_aux.
  pose proof (shr_fexp_nonneg p e mx ex lx H) as H1.
  destruct (shr_fexp p e mx ex lx) as [mrs' e']. simpl in H1.
  pose proof (shr_fexp_nonneg p e _ e' loc_Exact
                (round_nearest_even_nonneg _ (loc_of_shr_record mrs') H1))
    as H2.
  destruct (shr_fexp p e _ e' loc_Exact) as [mrs'' e'']. simpl in H2.
  destruct (shr_m mrs'') as [|q|q]; try discriminate.
  - destruct (e'' <=? e - p); discriminate.
  - lia.
Qed.

Lemma flt_not_nan (z : Z) : flt z <> S754_nan.
Proof.
  unfold flt, binary_normalize.
  destruct z as [|q|q]; try discriminate;
    unfold binary_round;
    destruct (shl_align q 0 _) as [mz ez];
    apply binary_round_aux_not_nan; lia.
Qed.

Lemma SFdiv_core_binary_nonneg (p e : Z) (m1 m2 : positive) (e1 e2 : Z) :
  0 <= fst (fst (SFdiv_core_binary p e (Zpos m1) e1 (Zpos m2) e2)).
Proof.
  unfold SFdiv_core_binary.
  set (s := e1 - e2 - _).
  set (m' := match s with Z0 => Zpos m1 | Zpos _ => Z.shiftl (Zpos m1) s
                     | Zneg _ => 0 end).
  assert (Hm : 0 <= m').
  { subst m'. destruct s; try lia. apply Z.shiftl_nonneg. lia. }
  pose proof (Z_div_mod m' (Zpos m2) eq_refl) as Hd.
  destruct (Z.div_eucl m' (Zpos m2)) as [q r]. simpl.
  destruct Hd as [Hq Hr]. nia.
Qed.

(** Dividing by a finite non-zero float keeps a number a number. *)
Lemma fdiv_not_nan (x : float) (s : bool) (m : positive) (e : Z) :
  x <> S754_nan -> fdiv x (S754_finite s m e) <> S754_nan.
Proof.
  intros Hx. destruct x as [sx|sx| |sx mx ex]; simpl; try discriminate.
  - congruence.
  - unfold fdiv, SFdiv.
    pose proof (SFdiv_core_binary_nonneg prec emax mx m ex e) as H.
    destruct (SFdiv_core_binary prec emax (Zpos mx) ex (Zpos m) e)
      as [[mz ez] lz].
    apply binary_round_aux_not_nan. exact H.
Qed.

Lemma SFcompare_antisym (x y : float) :
  SFcompare y x = option_map CompOpp (SFcompare x y).
Proof.
  destruct x as [sx|sx| |sx mx ex], y as [sy|sy| |sy my ey]; simpl;
    try reflexivity;
    try (destruct sx; reflexivity);
    try (destruct sy; reflexivity);
    try (destruct sx, sy; reflexivity).
  destruct sx, sy; simpl; try reflexivity;
    rewrite (Z.compare_antisym ey ex);
    destruct (ey ?= ex); simpl; try reflexivity;
    rewrite (Pos.compare_cont_antisym mx my Eq); simpl;
    try rewrite CompOpp_involutive; reflexivity.
Qed.

(** On numbers, [x < c] is the negation of [c <= x]. *)
Lemma fltb_negb_leb (x c : float) :
  x <> S754_nan -> c <> S754_nan -> fltb x c = negb (SFleb c x).
Proof.
  intros Hx Hc. unfold fltb, SFltb, SFleb.
  rewrite (SFcompare_antisym x c).
  destruct (SFcompare x c) as [[]|] eqn:E; simpl; try reflexivity.
  destruct x as [sx|sx| |sx mx ex], c as [sc|sc| |sc mc ec];
    simpl in E; congruence.
Qed.

Arguments flt : simpl never.
Arguments fdiv : simpl never.
Arguments fmul : simpl never.
Arguments format_2f : simpl never.
Arguments float_overflow : simpl never.
Arguments str_of_int : simpl never.
Arguments lit : simpl never.
Arguments repeat_char : simpl never.

Lemma flt_1024 : flt 1024 = S754_finite false 4503599627370496 (-42).
Proof. reflexivity. Qed.

Lemma float_of_int_ok (z : Z) :
  Z.abs z < float_overflow -> float_of_int z = Ok (flt z).
Proof.
  intros H. unfold float_of_int.
  destruct (Z.ltb_spec (Z.abs z) float_overflow); [reflexivity | lia].
Qed.

(** The guard of [float_of_int] is where rounding leaves the floats: the
    integer just below is the largest float, the bound itself rounds to
    infinity. *)
Lemma float_overflow_threshold :
  flt float_overflow = S754_infinity false /\
  flt (float_overflow - 1) = S754_finite false (2 ^ 53 - 1) 971.
Proof. split; vm_compute; reflexivity. Qed.

Lemma float_overflow_large : 2 ^ 70 < float_overflow.
Proof. reflexivity. Qed.

(** ** [format_bytes] *)

(** From the second turn of the loop on, the value is a float: the loop
    over the remaining units is the scaling of the specification. *)
Lemma format_bytes_loop_float (units : list pystr) :
  forall (done : list pystr) (x : float),
    x <> S754_nan ->
    format_bytes_loop units (PFloat x) =
    (let? vu := scale_down (List.length units) (PFloat x)
                  (List.length done) in
     let? shown := format_2f_num (fst vu) in
     Ok (shown ++ lit " " ++
         nth (snd vu) (done ++ units ++ [lit "TB"]) []))%result.
Proof.
  induction units as [|unit rest IH]; intros done x Hx.
  - simpl. rewrite nth_middle. reflexivity.
  - cbn [format_bytes_loop scale_down List.length num_lt_const
         num_ge_const num_div_const rbind].
    rewrite fltb_negb_leb by (exact Hx || apply flt_not_nan).
    destruct (SFleb (flt 1024) x); cbn [negb].
    + specialize (IH (done ++ [unit]) (fdiv x (flt 1024))).
      rewrite length_app, Nat.add_1_r, <- app_assoc in IH.
      apply IH. rewrite flt_1024. apply fdiv_not_nan, Hx.
    + cbn [rbind format_2f_num fst snd].
      rewrite <- app_comm_cons, nth_middle. reflexivity.
Qed.

Lemma format_bytes_loop_float_ok (units : list pystr) :
  forall x : float, exists s, format_bytes_loop units (PFloat x) = Ok s.
Proof.
  induction units as [|unit rest IH]; intros x; simpl.
  - eexists; reflexivity.
  - destruct (fltb x (flt 1024)); [eexists; reflexivity | apply IH].
Qed.

Lemma format_bytes_refines (n : Z) :
  0 <= n < float_overflow -> format_bytes n = format_bytes_spec n.
Proof.
  intros [H0 H1]. unfold format_bytes, format_bytes_spec.
  cbn [format_bytes_loop scale_down num_lt_const num_ge_const
       num_div_const].
  rewrite (float_of_int_ok n) by lia.
  destruct (Z.ltb_spec n 1024) as [Hlt|Hge].
  - destruct (Z.leb_spec 1024 n); [lia|].
    cbn [rbind format_2f_num fst snd nth unit_names].
    rewrite (float_of_int_ok n) by lia. reflexivity.
  - destruct (Z.leb_spec 1024 n); [|lia].
    cbn [rbind].
    apply (format_bytes_loop_float [lit "KB"; lit "MB"; lit "GB"]
             [lit "B"]).
    rewrite flt_1024. apply fdiv_not_nan, flt_not_nan.
Qed.

Lemma format_bytes_total (n : Z) :
  0 <= n < float_overflow -> exists s, format_bytes n = Ok s.
Proof.
  intros [H0 H1]. unfold format_bytes.
  cbn [format_bytes_loop num_lt_const num_div_const format_2f_num].
  rewrite (float_of_int_ok n) by lia. cbn [rbind].
  destruct (n <? 1024).
  - eexists; reflexivity.
  - exact (format_bytes_loop_float_ok [lit "KB"; lit "MB"; lit "GB"]
             (fdiv (flt n) (flt 1024))).
Qed.

(** C8 (as amended): for every non-negative integer [n] that Python can
    convert to a float ([n < 2^1024 - 2^970]), [format_bytes n] returns a
    text, and that text is the one the specification describes: the value
    divided by 1024 while it is at least 1024 and the unit is below TB,
    shown with two decimals and the unit suffix; the four documented
    values are as stated. *)
Theorem format_bytes_scales :
  (forall n : Z, 0 <= n < float_overflow ->
     format_bytes n = format_bytes_spec n /\
     exists s, format_bytes n = Ok s) /\
  format_bytes 0 = Ok (lit "0.00 B") /\
  format_bytes 1024 = Ok (lit "1.00 KB") /\
  format_bytes 1536 = Ok (lit "1.50 KB") /\
  format_bytes (1024 * 1024 * 5) = Ok (lit "5.00 MB").
Proof.
  split.
  - intros n H. split.
    + apply format_bytes_refines, H.
    + apply format_bytes_total, H.
  - repeat split; vm_compute; reflexivity.
Qed.

Lemma format_bytes_scales_witness :
  0 <= 1536 < float_overflow /\
  format_bytes 1536 = format_bytes_spec 1536 /\
  exists s, format_bytes 1536 = Ok s.
Proof.
  split.
  - split; [lia | reflexivity].
  - apply (proj1 format_bytes_scales 1536).
    split; [lia | reflexivity].
Defined.

(** C8 as stated fails: an integer too large for a float makes
    [size /= 1024.0] raise instead of rendering. *)
Lemma format_bytes_rejects_huge :
  0 <= 2 ^ 1024 /\ format_bytes (2 ^ 1024) = Raise OverflowError.
Proof. split; [lia | vm_compute; reflexivity]. Qed.

(** ** Strings *)

Lemma startswith_app (p s : pystr) : startswith (p ++ s) p = true.
Proof.
  induction p as [|c p IH]; simpl; [reflexivity|].
  rewrite N.eqb_refl. exact IH.
Qed.

Lemma find_first_unfold (pat s : pystr) :
  find_first pat s =
  if startswith s pat then Some ([], skipn (List.length pat) s)
  else match s with
       | [] => None
       | c :: t =>
           match find_first pat t with
           | Some (pre, post) => Some (c :: pre, post)
           | None => None
           end
       end.
Proof. destruct s; reflexivity. Qed.

Lemma find_first_prefix (pat post : pystr) :
  find_first pat (pat ++ post) = Some ([], post).
Proof.
  rewrite find_first_unfold, startswith_app.
  rewrite skipn_app, skipn_all, Nat.sub_diag. reflexivity.
Qed.

Lemma find_first_app (pat : pystr) (pre post : pystr) :
  find_first pat (pre ++ pat ++ post) <> None.
Proof.
  induction pre as [|c pre IH].
  - simpl. rewrite find_first_prefix. discriminate.
  - rewrite find_first_unfold.
    destruct (startswith ((c :: pre) ++ pat ++ post) pat); [discriminate|].
    simpl.
    destruct (find_first pat (pre ++ pat ++ post)) as [[a b]|];
      [discriminate | contradiction].
Qed.

Lemma contains_app (pat pre post : pystr) :
  contains (pre ++ pat ++ post) pat = true.
Proof.
  unfold contains.
  pose proof (find_first_app pat pre post) as H.
  destruct (find_first pat (pre ++ pat ++ post)); congruence.
Qed.

(** ** [format_ttl] *)

Lemma timedelta_in_range (ttl : Z) :
  Z.abs (ttl / 86400) <= 999999999 ->
  timedelta_of_seconds ttl =
  Ok {| days := ttl / 86400; seconds := ttl mod 86400; microseconds := 0 |}.
Proof.
  intros H. unfold timedelta_of_seconds. cbv zeta.
  destruct (Z.ltb_spec 999999999 (Z.abs (ttl / 86400))); [lia | reflexivity].
Qed.

Lemma total_seconds_of_seconds (ttl : Z) :
  total_seconds
    {| days := ttl / 86400; seconds := ttl mod 86400; microseconds := 0 |} =
  int_truediv (ttl * 10 ^ 6) (10 ^ 6).
Proof.
  unfold total_seconds. cbn [days seconds microseconds].
  f_equal. rewrite Z.add_0_r. f_equal.
  rewrite (Z.div_mod ttl 86400) at 3 by lia. lia.
Qed.

Lemma seconds_as_float (ttl : Z) :
  Z.abs (ttl / 86400) <= 999999999 ->
  exists secs, int_truediv (ttl * 10 ^ 6) (10 ^ 6) = Ok secs.
Proof.
  intros H. unfold int_truediv.
  change (10 ^ 6) with 1000000.
  change (1000000 =? 0) with false. cbv iota.
  pose proof float_overflow_large as Hf.
  change (2 ^ 70) with 1180591620717411303424 in Hf.
  pose proof (Z.div_mod ttl 86400 ltac:(lia)) as Hdm.
  pose proof (Z.mod_pos_bound ttl 86400 ltac:(lia)) as Hm.
  destruct (Z.leb_spec (float_overflow * Z.abs 1000000)
                       (Z.abs (ttl * 1000000))) as [Hle|Hgt].
  - exfalso. lia.
  - eexists; reflexivity.
Qed.

(** C9 (as amended): the two sentinels are rendered by name; every other
    [ttl] that [timedelta] accepts (a day count of magnitude at most
    999999999) is rendered as one text holding the seconds value and, to two
    decimals, the hours that the float quotient of the seconds by 3600
    gives; [format_ttl 90] holds both ["90 seconds"] and ["0.03 hours"]. *)
Theorem format_ttl_cases :
  format_ttl (-1) = Ok (lit "No expiration") /\
  format_ttl (-2) = Ok (lit "Key does not exist") /\
  (forall ttl : Z,
     ttl <> -1 -> ttl <> -2 -> Z.abs (ttl / 86400) <= 999999999 ->
     exists secs : float,
       int_truediv (ttl * 10 ^ 6) (10 ^ 6) = Ok secs /\
       format_ttl ttl = Ok (ttl_text ttl secs) /\
       contains (ttl_text ttl secs) (str_of_int ttl ++ lit " seconds") = true /\
       contains (ttl_text ttl secs)
         (format_2f (fdiv secs (flt 3600)) ++ lit " hours") = true) /\
  format_ttl 90 = Ok (lit "90 seconds (0.03 hours)") /\
  contains (lit "90 seconds (0.03 hours)") (lit "90 seconds") = true /\
  contains (lit "90 seconds (0.03 hours)") (lit "0.03 hours") = true.
Proof.
  split; [reflexivity|]. split; [reflexivity|].
  split; [|repeat split; vm_compute; reflexivity].
  intros ttl H1 H2 Hr.
  destruct (seconds_as_float ttl Hr) as [secs Hs].
  exists secs. split; [exact Hs|]. split; [|split].
  - unfold format_ttl.
    destruct (Z.eqb_spec ttl (-1)); [contradiction|].
    destruct (Z.eqb_spec ttl (-2)); [contradiction|].
    rewrite (timedelta_in_range ttl Hr). cbn [rbind].
    rewrite total_seconds_of_seconds, Hs. reflexivity.
  - unfold ttl_text.
    change (lit " seconds (") with (lit " seconds" ++ lit " (").
    rewrite <- (app_assoc (lit " seconds")), (app_assoc (str_of_int ttl)).
    apply (contains_app _ []).
  - unfold ttl_text.
    change (lit " hours)") with (lit " hours" ++ lit ")").
    rewrite (app_assoc (str_of_int ttl)), (app_assoc (format_2f _)).
    apply contains_app.
Qed.

Lemma format_ttl_cases_witness :
  exists secs : float,
    int_truediv (3600 * 10 ^ 6) (10 ^ 6) = Ok secs /\
    format_ttl 3600 = Ok (ttl_text 3600 secs) /\
    contains (ttl_text 3600 secs) (str_of_int 3600 ++ lit " seconds") = true /\
    contains (ttl_text 3600 secs)
      (format_2f (fdiv secs (flt 3600)) ++ lit " hours") = true.
Proof.
  apply (proj1 (proj2 (proj2 format_ttl_cases)) 3600).
  - discriminate.
  - discriminate.
  - vm_compute. discriminate.
Defined.

(** C9 as stated fails: [timedelta] rejects a number of seconds worth more
    than 999999999 days. *)
Lemma format_ttl_rejects_huge :
  10 ^ 14 <> -1 /\ 10 ^ 14 <> -2 /\
  format_ttl (10 ^ 14) = Raise OverflowError.
Proof. repeat split; try discriminate. Qed.

(** ** Hit rate *)

Lemma int_truediv_fraction (a b : Z) :
  0 <= a <= b -> 0 < b -> exists q, int_truediv a b = Ok q.
Proof.
  intros Ha Hb. unfold int_truediv.
  destruct (Z.eqb_spec b 0); [lia|].
  pose proof float_overflow_large as Hf.
  change (2 ^ 70) with 1180591620717411303424 in Hf.
  destruct (Z.leb_spec (float_overflow * Z.abs b) (Z.abs a)) as [Hle|Hgt].
  - exfalso. rewrite (Z.abs_eq b), (Z.abs_eq a) in Hle by lia. nia.
  - eexists; reflexivity.
Qed.

(** C7: for non-negative counters the hit rate is [0] when there was no
    lookup, without any division being evaluated, and otherwise the float
    product by 100 of the correctly rounded quotient [hits / (hits +
    misses)]; it never raises.  [hits = 3, misses = 1] gives [75.0], shown
    as [75.00]; the quotient that the guard skips would raise. *)
Theorem hit_rate_guarded :
  (forall hits misses : Z, 0 <= hits -> 0 <= misses ->
     (hits + misses = 0 -> hit_rate hits misses = Ok (PInt 0)) /\
     (0 < hits + misses ->
      exists q : float,
        int_truediv hits (hits + misses) = Ok q /\
        hit_rate hits misses = Ok (PFloat (fmul q (flt 100)))) /\
     (exists rate, hit_rate hits misses = Ok rate)) /\
  hit_rate 3 1 = Ok (PFloat (flt 75)) /\
  (let? rate := hit_rate 3 1 in format_2f_num rate)%result =
    Ok (lit "75.00") /\
  (let? rate := hit_rate 0 0 in format_2f_num rate)%result =
    Ok (lit "0.00") /\
  int_truediv 0 (0 + 0) = Raise ZeroDivisionError.
Proof.
  split; [|repeat split; vm_compute; reflexivity].
  intros hits misses Hh Hm.
  assert (Hpos : 0 < hits + misses ->
                 exists q : float,
                   int_truediv hits (hits + misses) = Ok q /\
                   hit_rate hits misses = Ok (PFloat (fmul q (flt 100)))).
  { intros Ht.
    destruct (int_truediv_fraction hits (hits + misses)) as [q Hq];
      [lia | lia |].
    exists q. split; [exact Hq|].
    unfold hit_rate. cbv zeta.
    destruct (Z.ltb_spec 0 (hits + misses)); [|lia].
    rewrite Hq. reflexivity. }
  assert (Hzero : hits + misses = 0 -> hit_rate hits misses = Ok (PInt 0)).
  { intros Ht. unfold hit_rate. cbv zeta. rewrite Ht. reflexivity. }
  split; [exact Hzero|]. split; [exact Hpos|].
  destruct (Z.eq_dec (hits + misses) 0) as [E|E].
  - eexists. apply Hzero, E.
  - destruct Hpos as [q [_ Hq]]; [lia|]. eexists. exact Hq.
Qed.

Lemma hit_rate_guarded_witness :
  (2 + 6 = 0 -> hit_rate 2 6 = Ok (PInt 0)) /\
  (0 < 2 + 6 ->
   exists q : float,
     int_truediv 2 (2 + 6) = Ok q /\
     hit_rate 2 6 = Ok (PFloat (fmul q (flt 100)))) /\
  (exists rate, hit_rate 2 6 = Ok rate).
Proof. apply (proj1 hit_rate_guarded 2 6); lia. Defined.

(** ** Grouping keys by prefix *)

(** A key that begins with the namespace prefix loses exactly that prefix:
    what follows is kept as it is, later occurrences included. *)
Lemma key_without_ns_prefixed (namespace rest : pystr) :
  key_without_ns namespace (namespace ++ lit ":" ++ rest) = rest.
Proof.
  unfold key_without_ns, replace1.
  rewrite app_assoc, find_first_prefix. reflexivity.
Qed.

(** [split] never returns an empty list: the default of [prefix_of] is
    never taken. *)
Lemma prefix_of_first_part (namespace key : pystr) :
  prefix_of namespace key =
  nth 0 (split1 (key_without_ns namespace key) (lit ":")) [].
Proof.
  unfold prefix_of, split1. cbv zeta.
  destruct (find_first (lit ":") (key_without_ns namespace key))
    as [[pre post]|]; reflexivity.
Qed.

(** C4 (the code departs from it): a key that begins with
    [<namespace>:] loses that prefix and nothing else, but a key that does
    not begin with it and holds it further on loses that later occurrence:
    under the namespace ["*s"], the key ["x*s:foo"] is grouped under
    ["xfoo"] and not under ["x*s"]. *)
Theorem namespace_removed_anywhere :
  (forall namespace rest : pystr,
     key_without_ns namespace (namespace ++ lit ":" ++ rest) = rest) /\
  startswith (lit "x*s:foo") (lit "*s:") = false /\
  key_without_ns (lit "*s") (lit "x*s:foo") = lit "xfoo" /\
  prefix_of (lit "*s") (lit "x*s:foo") = lit "xfoo" /\
  key_groups (lit "*s") (scan glob_server (lit "*s:*")) =
    [(lit "xfoo", [lit "x*s:foo"])] /\
  key_without_ns (lit "ns") (lit "cache:ns:v") = lit "cache:v".
Proof.
  split; [exact key_without_ns_prefixed|].
  repeat split; vm_compute; reflexivity.
Qed.

(** C5 (the code departs from it): a key that is empty once the namespace
    prefix is removed is grouped under the empty string, not under
    ["unknown"]. *)
Theorem empty_key_prefix_is_empty :
  (forall namespace : pystr,
     prefix_of namespace (namespace ++ lit ":") = []) /\
  prefix_of (lit "ns") (lit "ns:") = [] /\
  prefix_of (lit "ns") (lit "ns:") <> lit "unknown" /\
  key_groups (lit "ns") (scan bare_server (lit "ns:*")) =
    [([], [lit "ns:"])].
Proof.
  assert (H : forall namespace : pystr,
             prefix_of namespace (namespace ++ lit ":") = []).
  { intros namespace. rewrite prefix_of_first_part.
    rewrite <- (app_nil_r (lit ":")) at 1.
    rewrite key_without_ns_prefixed. reflexivity. }
  split; [exact H|]. split; [apply (H (lit "ns"))|].
  split; [vm_compute; discriminate|].
  vm_compute. reflexivity.
Qed.

(** ** The process *)

Lemma world_eq (w w' : world) :
  stdout w = stdout w' -> calls w = calls w' -> connected w = connected w' ->
  w = w'.
Proof. destruct w, w'; simpl; intros; subst; reflexivity. Qed.

Lemma emit_nil (w : world) : emit [] [] w = w.
Proof. apply world_eq; simpl; rewrite ?app_nil_r; reflexivity. Qed.

Lemma emit_emit (l1 l2 : list pystr) (c1 c2 : list command) (w : world) :
  emit l2 c2 (emit l1 c1 w) = emit (l1 ++ l2) (c1 ++ c2) w.
Proof. apply world_eq; simpl; rewrite ?app_assoc; reflexivity. Qed.

Lemma print_emit (line : pystr) (w : world) :
  print line w = (Ok tt, emit [line] [] w).
Proof.
  unfold print. f_equal. apply world_eq; simpl; rewrite ?app_nil_r;
    reflexivity.
Qed.

Lemma send_emit (c : command) (w : world) :
  send c w = (Ok tt, emit [] [c] w).
Proof.
  unfold send. f_equal. apply world_eq; simpl; rewrite ?app_nil_r;
    reflexivity.
Qed.

Lemma bind_ok {A B} (m : M A) (k : A -> M B) (w w' : world) (a : A) :
  m w = (Ok a, w') -> bind m k w = k a w'.
Proof. intros H. unfold bind. rewrite H. reflexivity. Qed.

Lemma bind_raise {A B} (m : M A) (k : A -> M B) (w w' : world) (e : exn) :
  m w = (Raise e, w') -> bind m k w = (Raise e, w').
Proof. intros H. unfold bind. rewrite H. reflexivity. Qed.

Lemma bind_print {B} (line : pystr) (k : unit -> M B) (w : world) :
  bind (print line) k w = k tt (emit [line] [] w).
Proof. apply bind_ok, print_emit. Qed.

Lemma bind_send {B} (c : command) (k : unit -> M B) (w : world) :
  bind (send c) k w = k tt (emit [] [c] w).
Proof. apply bind_ok, send_emit. Qed.

Lemma bind_lift_ok {A B} (r : result A) (a : A) (k : A -> M B) (w : world) :
  r = Ok a -> bind (lift r) k w = k a w.
Proof. intros ->. reflexivity. Qed.

Lemma bind_ret {A B} (a : A) (k : A -> M B) (w : world) :
  bind (ret a) k w = k a w.
Proof. reflexivity. Qed.

(** A loop whose body prints one line per element prints them in order. *)
Lemma for_each_lines {A} (f : A -> pystr) (body : A -> M unit)
  (l : list A) :
  (forall x w, body x w = (Ok tt, emit [f x] [] w)) ->
  forall w, for_each l body w = (Ok tt, emit (map f l) [] w).
Proof.
  intros Hb. induction l as [|x l IH]; intros w.
  - simpl. unfold ret. rewrite emit_nil. reflexivity.
  - simpl. rewrite (bind_ok _ _ _ _ _ (Hb x w)), IH, emit_emit.
    reflexivity.
Qed.

Lemma bind_assoc {A B C} (m : M A) (f : A -> M B) (g : B -> M C)
  (w : world) :
  bind (bind m f) g w = bind m (fun a => bind (f a) g) w.
Proof. unfold bind. destruct (m w) as [[a|e] w']; reflexivity. Qed.

Ltac step :=
  first [ rewrite bind_assoc | rewrite bind_print | rewrite bind_send
        | rewrite bind_ret | rewrite emit_emit ].

Section InspectorFacts.
Context {J : JsonLib} {Py : Interpreter}.

Lemma render_item_emit (label value : pystr) (w : world) :
  render_item label value w = (Ok tt, emit [item_text label value] [] w).
Proof.
  unfold render_item, item_text.
  destruct (json_loads value); apply print_emit.
Qed.

End InspectorFacts.

Lemma firstn_length_min {A} (l : list A) (n : nat) :
  firstn (Nat.min n (List.length l)) l = firstn n l.
Proof.
  destruct (Nat.le_ge_cases n (List.length l)) as [H|H].
  - rewrite Nat.min_l by exact H. reflexivity.
  - rewrite Nat.min_r by exact H.
    rewrite firstn_all, firstn_all2 by exact H. reflexivity.
Qed.

(** LRANGE 0 4 returns the first five elements, all of them when there
    are fewer. *)
Lemma lrange_first_five (items : list pystr) :
  lrange items 0 4 = slice_to 5 items.
Proof.
  unfold lrange, slice_to, len. cbv zeta.
  change (0 <? 0) with false. change (4 <? 0) with false. cbv iota.
  destruct items as [|x items]; [reflexivity|].
  destruct (Z.ltb_spec (Z.min 4 (Z.of_nat (List.length (x :: items)) - 1)) 0)
    as [H|H].
  - simpl List.length in H. lia.
  - change (Z.to_nat 0) with 0%nat. rewrite skipn_O.
    rewrite <- (firstn_length_min (x :: items) 5). f_equal.
    simpl List.length in *. lia.
Qed.

Section InspectKeyFacts.
Context {J : JsonLib} {Py : Interpreter}.

Lemma inspect_key_existing (r : server) (key namespace : pystr) (e : entry)
  (shown : pystr) (w : world) :
  let full_key := full_key_of key namespace in
  dict_get (keyspace r) full_key = Some e ->
  format_ttl (redis_ttl r full_key) = Ok shown ->
  inspect_key r key namespace w =
  dispatch r full_key (redis_type r full_key)
    (emit (header_lines full_key (redis_type r full_key) shown)
          [EXISTS full_key; TYPE full_key; TTL full_key] w).
Proof.
  intros full_key He Ht. unfold inspect_key. fold full_key.
  unfold r_exists, r_type, r_ttl, redis_exists. rewrite He.
  unfold bind at 1. unfold bind at 1. rewrite send_emit.
  unfold ret at 1. cbn [negb].
  unfold bind at 1. unfold bind at 1. rewrite send_emit. unfold ret at 1.
  unfold bind at 1. unfold bind at 1. rewrite send_emit. unfold ret at 1.
  repeat step.
  rewrite (bind_lift_ok _ shown) by exact Ht.
  repeat step. reflexivity.
Qed.

End InspectKeyFacts.

(** ** The list branch *)

Section ListBranch.
Context {J : JsonLib} {Py : Interpreter}.

Lemma inspect_list_lines (r : server) (full_key : pystr) (e : entry)
  (items : list pystr) (w : world) :
  dict_get (keyspace r) full_key = Some e ->
  value e = RList items ->
  inspect_list r full_key w =
  (Ok tt, emit (list_lines items)
               [LLEN full_key; LRANGE full_key 0 4] w).
Proof.
  intros He Hv. unfold inspect_list, r_llen, r_lrange.
  rewrite He, Hv.
  unfold bind at 1. unfold bind at 1. rewrite send_emit. unfold ret at 1.
  step.
  unfold bind at 1. unfold bind at 1. rewrite send_emit. unfold ret at 1.
  repeat step.
  rewrite lrange_first_five.
  rewrite (for_each_lines
             (fun p : Z * pystr =>
                let '(i, item) := p in
                item_text (lit "  [" ++ str_of_int i ++ lit "]: ") item)).
  - rewrite emit_emit. reflexivity.
  - intros [i item] w'. apply render_item_emit.
Qed.

End ListBranch.

(** C2 (the code departs from it): for every list key the inspector
    prints the total length and previews the first five elements, all of
    them when there are fewer, and then stops: no line tells how many
    elements are left.  A list of seven elements is shown as five previews
    and nothing more. *)
Theorem list_preview_has_no_remainder :
  (forall (J : JsonLib) (Py : Interpreter) (r : server)
          (key namespace : pystr) (e : entry) (items : list pystr)
          (shown : pystr) (w : world),
     let full_key := full_key_of key namespace in
     dict_get (keyspace r) full_key = Some e ->
     value e = RList items ->
     format_ttl (redis_ttl r full_key) = Ok shown ->
     inspect_key r key namespace w =
     (Ok tt,
      emit (header_lines full_key (lit "list") shown ++ list_lines items)
           [EXISTS full_key; TYPE full_key; TTL full_key;
            LLEN full_key; LRANGE full_key 0 4] w)) /\
  inspect_key example_server (lit "queue") (lit "ns") initial_world =
  (Ok tt,
   {| stdout :=
        [newline ++ repeat_char "=" 60;
         lit "Key: ns:queue";
         lit "Type: list";
         lit "TTL: 90 seconds (0.03 hours)";
         lit "List length: 7";
         lit "First 5 items:";
         lit "  [0]: a"; lit "  [1]: b"; lit "  [2]: c"; lit "  [3]: d";
         lit "  [4]: e"];
      calls :=
        [EXISTS (lit "ns:queue"); TYPE (lit "ns:queue");
         TTL (lit "ns:queue"); LLEN (lit "ns:queue");
         LRANGE (lit "ns:queue") 0 4];
      connected := false |}).
Proof.
  split; [|vm_compute; reflexivity].
  intros J Py r key namespace e items shown w full_key He Hv Ht.
  rewrite (inspect_key_existing r key namespace e shown w He Ht).
  fold full_key.
  assert (Hty : redis_type r full_key = lit "list").
  { unfold redis_type. rewrite He, Hv. reflexivity. }
  rewrite Hty. unfold dispatch.
  change (pystr_eqb (lit "list") (lit "string")) with false.
  change (pystr_eqb (lit "list") (lit "hash")) with false.
  change (pystr_eqb (lit "list") (lit "list")) with true.
  cbv iota.
  rewrite (inspect_list_lines r full_key e items _ He Hv), emit_emit.
  reflexivity.
Qed.

Lemma list_preview_has_no_remainder_witness :
  inspect_key example_server (lit "queue") (lit "ns") initial_world =
  (Ok tt,
   emit (header_lines (lit "ns:queue") (lit "list")
           (lit "90 seconds (0.03 hours)") ++ list_lines seven_items)
        [EXISTS (lit "ns:queue"); TYPE (lit "ns:queue");
         TTL (lit "ns:queue"); LLEN (lit "ns:queue");
         LRANGE (lit "ns:queue") 0 4] initial_world).
Proof.
  apply (proj1 list_preview_has_no_remainder json_integers
           example_interpreter example_server (lit "queue") (lit "ns")
           (example_entry (RList seven_items)) seven_items
           (lit "90 seconds (0.03 hours)") initial_world);
    reflexivity.
Defined.

(** ** The string branch *)





Section StringBranch.
Context {J : JsonLib} {Py : Interpreter}.


End StringBranch.




(** ** Computations that only print and query *)

Section Querying.
Variable P : command -> Prop.

Lemma querying_ret {A} (a : A) : querying P (ret a).
Proof.
  intros w. exists [], []. split; [|constructor].
  simpl. symmetry. apply emit_nil.
Qed.

Lemma querying_raise {A} (e : exn) : querying P (@raise A e).
Proof.
  intros w. exists [], []. split; [|constructor].
  simpl. symmetry. apply emit_nil.
Qed.

Lemma querying_lift {A} (r : result A) : querying P (lift r).
Proof.
  intros w. exists [], []. split; [|constructor].
  simpl. symmetry. apply emit_nil.
Qed.

Lemma querying_print (line : pystr) : querying P (print line).
Proof.
  intros w. exists [line], []. split; [|constructor].
  rewrite print_emit. reflexivity.
Qed.

Lemma querying_send (c : command) : P c -> querying P (send c).
Proof.
  intros Hc w. exists [], [c]. split; [|repeat constructor; exact Hc].
  rewrite send_emit. reflexivity.
Qed.

Lemma querying_bind {A B} (m : M A) (k : A -> M B) :
  querying P m -> (forall a, querying P (k a)) -> querying P (bind m k).
Proof.
  intros Hm Hk w. destruct (Hm w) as [l1 [c1 [H1 F1]]].
  unfold bind. destruct (m w) as [[a|e] w1]; simpl in H1; subst w1.
  - destruct (Hk a (emit l1 c1 w)) as [l2 [c2 [H2 F2]]].
    exists (l1 ++ l2), (c1 ++ c2). split.
    + rewrite H2. apply emit_emit.
    + apply Forall_app. split; assumption.
  - exists l1, c1. split; [reflexivity | exact F1].
Qed.

Lemma querying_for_each {A} (l : list A) (body : A -> M unit) :
  (forall x, querying P (body x)) -> querying P (for_each l body).
Proof.
  intros Hb. induction l as [|x l IH]; simpl.
  - apply querying_ret.
  - apply querying_bind; [apply Hb | intros _; exact IH].
Qed.

End Querying.

Ltac steady_step :=
  first
    [ apply querying_print
    | apply querying_send; first [exact I | reflexivity]
    | apply querying_ret
    | apply querying_raise | apply querying_lift
    | apply querying_bind; [|intros ?]
    | apply querying_for_each; intros ?
    | match goal with
      | |- querying _ (match ?x with _ => _ end) => destruct x
      end ].

Ltac steady_tac := unfold steady; repeat steady_step.

Section SteadyParts.
Context {J : JsonLib} {Py : Interpreter}.

(** The inspector asks the server about the resolved key only. *)
Lemma inspect_key_one_key (r : server) (key namespace : pystr) :
  querying (fun c => command_key c = Some (full_key_of key namespace))
    (inspect_key r key namespace).
Proof.
  unfold inspect_key, inspect_string, inspect_hash, inspect_list,
    inspect_set, render_item, r_exists, r_type, r_ttl, r_get, r_hgetall,
    r_llen, r_lrange, r_smembers.
  steady_tac.
Qed.

Lemma querying_weaken (P Q : command -> Prop) {A} (m : M A) :
  (forall c, P c -> Q c) -> querying P m -> querying Q m.
Proof.
  intros HPQ Hm w. destruct (Hm w) as [l [c [E F]]].
  exists l, c. split; [exact E|].
  eapply Forall_impl; [|exact F]. exact HPQ.
Qed.

Lemma steady_inspect_key (r : server) (key namespace : pystr) :
  steady (inspect_key r key namespace).
Proof.
  eapply querying_weaken; [|apply inspect_key_one_key]. intros; exact I.
Qed.

Lemma steady_keys_by_type (namespace : pystr) (keys : list pystr) :
  steady (keys_by_type namespace keys).
Proof. unfold keys_by_type. steady_tac. Qed.

Lemma steady_sample_keys (r : server) (keys : list pystr) :
  steady (sample_keys r keys).
Proof.
  unfold sample_keys, r_type, r_ttl, r_memory_usage. steady_tac.
Qed.

Lemma steady_memory_statistics (r : server) : steady (memory_statistics r).
Proof. unfold memory_statistics, r_info. steady_tac. Qed.

Lemma steady_cache_statistics (r : server) : steady (cache_statistics r).
Proof. unfold cache_statistics, r_info. steady_tac. Qed.

Lemma steady_usage_hint (env : environ) (argv0 namespace : pystr) :
  steady (usage_hint env argv0 namespace).
Proof. unfold usage_hint. steady_tac. Qed.

Lemma steady_banner (env : environ) (namespace : pystr) :
  steady (banner env namespace).
Proof. unfold banner. steady_tac. Qed.

(** Everything [main] does once [connect_redis] has returned. *)
Lemma steady_after_connect (env : environ) (argv0 : pystr)
  (args : list pystr) (r : server) (namespace : pystr) :
  steady
    (banner env namespace ;;
     keys <- r_keys r (namespace ++ lit ":*") ;;
     print (lit "Found " ++ str_of_int (len keys) ++
            lit " keys with namespace '" ++ namespace ++ lit "'") ;;
     print [] ;;
     if len keys =? 0 then print (lit "No cached data found.")
     else
       keys_by_type namespace keys ;;
       sample_keys r keys ;;
       memory_statistics r ;;
       cache_statistics r ;;
       match args with
       | key_to_inspect :: _ => inspect_key r key_to_inspect namespace
       | [] => usage_hint env argv0 namespace
       end).
Proof.
  unfold steady.
  apply querying_bind; [apply steady_banner | intros _].
  unfold r_keys.
  apply querying_bind; [steady_tac | intros keys].
  apply querying_bind; [steady_tac | intros _].
  apply querying_bind; [steady_tac | intros _].
  destruct (len keys =? 0); [apply querying_print|].
  apply querying_bind; [apply steady_keys_by_type | intros _].
  apply querying_bind; [apply steady_sample_keys | intros _].
  apply querying_bind; [apply steady_memory_statistics | intros _].
  apply querying_bind; [apply steady_cache_statistics | intros _].
  destruct args; [apply steady_usage_hint | apply steady_inspect_key].
Qed.

End SteadyParts.

(** ** The connection *)

Lemma emit_opened (lines : list pystr) (cmds : list command) (w : world) :
  emit lines cmds (opened w) = opened (emit lines cmds w).
Proof. reflexivity. Qed.

Lemma bind_established {B} (k : unit -> M B) (w : world) :
  bind established k w = k tt (opened w).
Proof. reflexivity. Qed.

Section Connection.
Context {Py : Interpreter}.

Lemma connect_redis_pong (s : startup) (env : environ) (r : server)
  (w : world) :
  settings s = Ok env -> ping r = Pong ->
  connect_redis s r w =
  (Ok (env, env_namespace env), opened (emit [] [PING] w)).
Proof.
  intros Hs Hp. unfold connect_redis.
  rewrite (bind_lift_ok _ env) by exact Hs. cbv zeta. rewrite Hp.
  rewrite bind_send. reflexivity.
Qed.

Lemma connect_redis_failed (s : startup) (env : environ) (r : server)
  (w : world) :
  settings s = Ok env -> ping r <> Pong ->
  connect_redis s r w =
  (Raise (SystemExit 1),
   {| stdout := stdout w ++ failure_lines env (ping r);
      calls := calls w ++ [PING];
      connected := if established_by (ping r) then true else connected w |}).
Proof.
  intros Hs Hp. unfold connect_redis.
  rewrite (bind_lift_ok _ env) by exact Hs. cbv zeta.
  destruct (ping r) as [|details|details held]; [contradiction| |].
  - repeat step. reflexivity.
  - destruct held.
    + rewrite bind_send. cbv beta iota.
      rewrite bind_established, bind_print. unfold raise.
      rewrite emit_opened, emit_emit. reflexivity.
    + repeat step. reflexivity.
Qed.

(** Settings that do not load end the run before anything is printed or
    sent. *)
Lemma connect_redis_unset (s : startup) (e : exn) (r : server) (w : world) :
  settings s = Raise e -> connect_redis s r w = (Raise e, w).
Proof. intros Hs. unfold connect_redis. rewrite Hs. reflexivity. Qed.

End Connection.

(** A computation that only prints and queries leaves the connection as
    it found it. *)
Lemma steady_connected {A} (m : M A) (w : world) :
  steady m -> connected (snd (m w)) = connected w.
Proof. intros H. destruct (H w) as [l [c [E _]]]. rewrite E. reflexivity. Qed.

(** ** The run without keys *)

(** C10: when the scan of the namespace returns no key, the run prints the
    banner, the count and "No cached data found." and returns: nothing
    else is printed, the server is asked nothing after KEYS (no INFO, no
    EXISTS), whatever the arguments of the command line. *)
Theorem no_keys_ends_run :
  forall (J : JsonLib) (Py : Interpreter) (s : startup) (env : environ)
         (argv0 : pystr) (args : list pystr) (r : server),
    settings s = Ok env ->
    ping r = Pong ->
    scan r (env_namespace env ++ lit ":*") = [] ->
    run s argv0 args r =
    (Ok tt,
     {| stdout :=
          banner_lines env (env_namespace env) ++
          [lit "Found 0 keys with namespace '" ++ env_namespace env ++
           lit "'";
           [];
           lit "No cached data found."];
        calls := [PING; KEYS (env_namespace env ++ lit ":*")];
        connected := true |}) /\
    exit_code (fst (run s argv0 args r)) = 0.
Proof.
  intros J Py s env argv0 args r Hl Hp Hs.
  assert (E : run s argv0 args r =
              (Ok tt,
               {| stdout :=
                    banner_lines env (env_namespace env) ++
                    [lit "Found 0 keys with namespace '" ++
                     env_namespace env ++ lit "'";
                     [];
                     lit "No cached data found."];
                  calls := [PING; KEYS (env_namespace env ++ lit ":*")];
                  connected := true |})).
  { unfold run, main.
    rewrite (bind_ok _ _ _ _ _
               (connect_redis_pong s env r initial_world Hl Hp)).
    cbv beta iota.
    unfold banner, r_keys. repeat (step; cbv beta).
    rewrite Hs. change (len (@nil pystr) =? 0) with true. cbv iota.
    rewrite print_emit, emit_emit. reflexivity. }
  rewrite E. split; reflexivity.
Qed.

Lemma no_keys_ends_run_witness :
  run example_startup script [lit "completion:x1"] empty_server =
  (Ok tt,
   {| stdout :=
        banner_lines example_env (lit "ns") ++
        [lit "Found 0 keys with namespace 'ns'"; [];
         lit "No cached data found."];
      calls := [PING; KEYS (lit "ns:*")];
      connected := true |}).
Proof.
  apply (no_keys_ends_run json_integers example_interpreter example_startup
           example_env script [lit "completion:x1"] empty_server);
    reflexivity.
Defined.

(** C3 (as amended): the program never releases the connection.  At
    every exit of the run, whatever it printed or raised, the connection is
    in the state in which the connection attempt at startup left it: open
    when the server answered the test command, open as well when the
    server refused that command over an established connection, and not
    held when no connection could be made; after a failed test the process
    exits with status 1 having sent nothing else. *)
Theorem connection_never_released :
  forall (J : JsonLib) (Py : Interpreter) (s : startup) (argv0 : pystr)
         (args : list pystr) (r : server),
    connected (snd (run s argv0 args r)) =
      connected (snd (connect_redis s r initial_world)) /\
    forall env : environ,
      settings s = Ok env ->
      connected (snd (run s argv0 args r)) = established_by (ping r) /\
      (ping r <> Pong ->
       fst (run s argv0 args r) = Raise (SystemExit 1) /\
       exit_code (fst (run s argv0 args r)) = 1 /\
       calls (snd (run s argv0 args r)) = [PING]).
Proof.
  intros J Py s argv0 args r.
  assert (H : forall env : environ,
            settings s = Ok env ->
            connected (snd (run s argv0 args r)) =
              connected (snd (connect_redis s r initial_world)) /\
            connected (snd (run s argv0 args r)) = established_by (ping r) /\
            (ping r <> Pong ->
             fst (run s argv0 args r) = Raise (SystemExit 1) /\
             exit_code (fst (run s argv0 args r)) = 1 /\
             calls (snd (run s argv0 args r)) = [PING])).
  { intros env Hl. unfold run, main.
    destruct (ping r) as [|details|details held] eqn:Hp.
    - rewrite (bind_ok _ _ _ _ _
                 (connect_redis_pong s env r initial_world Hl Hp)).
      cbv beta iota.
      rewrite (steady_connected _ _
                 (steady_after_connect env argv0 args r
                    (env_namespace env))).
      rewrite (connect_redis_pong s env r initial_world Hl Hp).
      repeat split; contradiction.
    - assert (Hn : ping r <> Pong) by (rewrite Hp; discriminate).
      pose proof (connect_redis_failed s env r initial_world Hl Hn) as E.
      rewrite Hp in E. rewrite (bind_raise _ _ _ _ _ E), E.
      repeat split.
    - assert (Hn : ping r <> Pong) by (rewrite Hp; discriminate).
      pose proof (connect_redis_failed s env r initial_world Hl Hn) as E.
      rewrite Hp in E. rewrite (bind_raise _ _ _ _ _ E), E.
      destruct held; repeat split. }
  split.
  - destruct (settings s) as [env|e] eqn:Hl.
    + apply (H env eq_refl).
    + unfold run, main.
      rewrite (bind_raise _ _ _ _ _
                 (connect_redis_unset s e r initial_world Hl)).
      rewrite (connect_redis_unset s e r initial_world Hl). reflexivity.
  - intros env Hl. apply (H env Hl).
Qed.

Lemma connection_never_released_witness :
  connected (snd (run example_startup script [lit "queue"] example_server))
    = true /\
  connected (snd (run example_startup script [] refusing_server)) = true /\
  exit_code (fst (run example_startup script [] refusing_server)) = 1 /\
  connected (snd (run example_startup script [] unreachable_server)) =
    false.
Proof.
  assert (H : ping refusing_server <> Pong) by discriminate.
  split; [|split; [|split]].
  - apply (proj2 (connection_never_released json_integers
                    example_interpreter example_startup script
                    [lit "queue"] example_server) example_env eq_refl).
  - apply (proj2 (connection_never_released json_integers
                    example_interpreter example_startup script
                    [] refusing_server) example_env eq_refl).
  - apply (proj2 (connection_never_released json_integers
                    example_interpreter example_startup script
                    [] refusing_server) example_env eq_refl).
    exact H.
  - apply (proj2 (connection_never_released json_integers
                    example_interpreter example_startup script
                    [] unreachable_server) example_env eq_refl).
Defined.

(** The client can give its connection back; [main] never asks for it. *)
Lemma close_releases (w : world) : connected (snd (close w)) = false.
Proof. reflexivity. Qed.

(** C3 as stated fails: the run that finds no key and the run that
    inspects a missing key both return with the connection open, and the
    run whose test command the server refuses exits with it open. *)
Lemma connection_left_open :
  run example_startup script [] empty_server =
  (Ok tt,
   {| stdout :=
        banner_lines example_env (lit "ns") ++
        [lit "Found 0 keys with namespace 'ns'"; [];
         lit "No cached data found."];
      calls := [PING; KEYS (lit "ns:*")];
      connected := true |}) /\
  fst (run example_startup script [lit "missing"] example_server) = Ok tt /\
  last (stdout (snd (run example_startup script [lit "missing"]
                       example_server)))
       [] = lit "Key 'ns:missing' does not exist" /\
  connected (snd (run example_startup script [lit "missing"]
                    example_server)) = true /\
  run example_startup script [] refusing_server =
  (Raise (SystemExit 1),
   {| stdout := [lit "Error connecting to Redis: unknown command 'PING'"];
      calls := [PING];
      connected := true |}).
Proof. repeat split; vm_compute; reflexivity. Qed.

(** ** The run with one argument *)

Lemma bind_ext {A B} (m : M A) (f g : A -> M B) (w : world) :
  (forall a w', f a w' = g a w') -> bind m f w = bind m g w.
Proof.
  intros H. unfold bind. destruct (m w) as [[a|e] w']; [apply H|reflexivity].
Qed.

Lemma bind_ok_inv {A B} (m : M A) (k : A -> M B) (w w' : world) (b : B) :
  bind m k w = (Ok b, w') ->
  exists a w1, m w = (Ok a, w1) /\ k a w1 = (Ok b, w').
Proof.
  unfold bind. destruct (m w) as [[a|e] w1]; intros H.
  - exists a, w1. split; [reflexivity | exact H].
  - discriminate.
Qed.

Lemma steady_result {A} (m : M A) (w w' : world) (res : result A) :
  steady m -> m w = (res, w') -> exists lines cmds, w' = emit lines cmds w.
Proof.
  intros Hm E. destruct (Hm w) as [l [c [H _]]].
  rewrite E in H. exists l, c. exact H.
Qed.

Lemma printed_emit_old (line : pystr) (l : list pystr) (c : list command)
  (w : world) :
  printed line w = true -> printed line (emit l c w) = true.
Proof.
  unfold printed. simpl. rewrite existsb_app. intros ->. reflexivity.
Qed.

Lemma pystr_eqb_refl (s : pystr) : pystr_eqb s s = true.
Proof.
  induction s as [|c s IH]; simpl; [reflexivity|].
  rewrite N.eqb_refl. exact IH.
Qed.

Lemma printed_emit_new (line : pystr) (l : list pystr) (c : list command)
  (w : world) :
  printed line (emit (line :: l) c w) = true.
Proof.
  unfold printed. simpl. rewrite existsb_app. simpl.
  rewrite pystr_eqb_refl. apply orb_true_r.
Qed.

Section OverviewFacts.
Context {J : JsonLib} {Py : Interpreter}.

(** Each part of the overview starts with its heading. *)
Lemma keys_by_type_heading (namespace : pystr) (keys : list pystr)
  (w w' : world) (res : result unit) :
  keys_by_type namespace keys w = (res, w') ->
  exists lines cmds, w' = emit (lit "Keys by type:" :: lines) cmds w.
Proof.
  unfold keys_by_type. rewrite bind_print. intros E.
  apply steady_result in E; [|steady_tac].
  destruct E as [l [c E]]. rewrite emit_emit in E.
  exists l, c. exact E.
Qed.

Lemma sample_keys_heading (r : server) (keys : list pystr)
  (w w' : world) (res : result unit) :
  sample_keys r keys w = (res, w') ->
  exists lines cmds,
    w' = emit (lit "Sample keys (first 10):" :: lines) cmds w.
Proof.
  unfold sample_keys. rewrite bind_print. intros E.
  apply steady_result in E;
    [|unfold r_type, r_ttl, r_memory_usage; steady_tac].
  destruct E as [l [c E]]. rewrite emit_emit in E.
  exists l, c. exact E.
Qed.

Lemma memory_statistics_heading (r : server) (w w' : world)
  (res : result unit) :
  memory_statistics r w = (res, w') ->
  exists lines cmds,
    w' = emit (lit "Memory Statistics:" :: lines)
              (INFO (lit "memory") :: cmds) w.
Proof.
  unfold memory_statistics, r_info. repeat (step; cbv beta). intros E.
  apply steady_result in E; [|steady_tac].
  destruct E as [l [c E]]. rewrite emit_emit in E.
  exists l, c. exact E.
Qed.

Lemma cache_statistics_heading (r : server) (w w' : world) :
  cache_statistics r w = (Ok tt, w') ->
  exists lines cmds,
    w' = emit (lit "Cache Statistics:" :: lines)
              (INFO (lit "stats") :: cmds) w.
Proof.
  unfold cache_statistics, r_info. repeat (step; cbv beta zeta). intros E.
  apply bind_ok_inv in E. destruct E as [rate [w1 [E1 E2]]].
  unfold lift in E1. injection E1 as _ <-.
  rewrite bind_print in E2.
  apply steady_result in E2; [|steady_tac].
  destruct E2 as [l [c E2]]. rewrite !emit_emit in E2.
  exists l, c. exact E2.
Qed.

End OverviewFacts.

Lemma len_cons_nonzero {A} (x : A) (l : list A) : (len (x :: l) =? 0) = false.
Proof.
  unfold len. simpl List.length.
  destruct (Z.eqb_spec (Z.of_nat (S (List.length l))) 0); [lia | reflexivity].
Qed.

Ltac assoc :=
  repeat match goal with
         | |- context [bind (bind ?m ?f) ?g ?w] =>
             rewrite (bind_assoc m f g w)
         end.

Section OneArgument.
Context {J : JsonLib} {Py : Interpreter}.

Lemma usage_hint_emit (env : environ) (argv0 namespace : pystr)
  (w : world) :
  usage_hint env argv0 namespace w =
  (Ok tt, emit (usage_lines env argv0 namespace) [] w).
Proof.
  unfold usage_hint. repeat (step; cbv beta).
  rewrite print_emit, emit_emit. reflexivity.
Qed.

(** With keys in the namespace, [main] is the banner and the key count,
    the four sections of the overview and the branch on the command
    line. *)
Lemma main_overview_then (s : startup) (env : environ) (argv0 : pystr)
  (args : list pystr) (r : server) :
  settings s = Ok env ->
  ping r = Pong ->
  scan r (env_namespace env ++ lit ":*") <> [] ->
  run s argv0 args r =
  (overview_sections r (env_namespace env)
     (scan r (env_namespace env ++ lit ":*")) ;;
   match args with
   | key_to_inspect :: _ =>
       inspect_key r key_to_inspect (env_namespace env)
   | [] => usage_hint env argv0 (env_namespace env)
   end)
    (opened
       (emit (banner_lines env (env_namespace env) ++
              [lit "Found " ++
               str_of_int
                 (len (scan r (env_namespace env ++ lit ":*"))) ++
               lit " keys with namespace '" ++ env_namespace env ++
               lit "'";
               []])
             [PING; KEYS (env_namespace env ++ lit ":*")]
             initial_world)).
Proof.
  intros Hl Hp Hs. unfold run, main.
  rewrite (bind_ok _ _ _ _ _
             (connect_redis_pong s env r initial_world Hl Hp)).
  cbv beta iota.
  unfold banner, r_keys. repeat (step; cbv beta).
  match goal with
  | |- _ ?w1 = _ ?w2 => replace w1 with w2 by reflexivity
  end.
  destruct (scan r (env_namespace env ++ lit ":*")) as [|k keys] eqn:Ek;
    [contradiction|].
  rewrite len_cons_nonzero.
  unfold overview_sections. assoc.
  apply bind_ext. intros _ w2. cbv beta. assoc.
  apply bind_ext. intros _ w3. cbv beta. assoc.
  reflexivity.
Qed.

(** What the completed sections have printed and asked. *)
Lemma overview_sections_report (r : server) (namespace : pystr)
  (keys : list pystr) (w0 w : world) :
  overview_sections r namespace keys w0 = (Ok tt, w) ->
  printed (lit "Keys by type:") w = true /\
  printed (lit "Sample keys (first 10):") w = true /\
  printed (lit "Memory Statistics:") w = true /\
  printed (lit "Cache Statistics:") w = true /\
  In (INFO (lit "memory")) (calls w) /\
  In (INFO (lit "stats")) (calls w) /\
  exists lines cmds, w = emit lines cmds w0.
Proof.
  unfold overview_sections. intros E.
  apply bind_ok_inv in E. destruct E as [[] [w2 [E2 E]]].
  apply bind_ok_inv in E. destruct E as [[] [w3 [E3 E]]].
  apply bind_ok_inv in E. destruct E as [[] [w4 [E4 E5]]].
  apply keys_by_type_heading in E2. destruct E2 as [l2 [c2 ->]].
  apply sample_keys_heading in E3. destruct E3 as [l3 [c3 ->]].
  apply memory_statistics_heading in E4. destruct E4 as [l4 [c4 ->]].
  apply cache_statistics_heading in E5. destruct E5 as [l5 [c5 ->]].
  repeat split.
  - do 3 apply printed_emit_old. apply printed_emit_new.
  - do 2 apply printed_emit_old. apply printed_emit_new.
  - apply printed_emit_old. apply printed_emit_new.
  - apply printed_emit_new.
  - simpl. rewrite !in_app_iff. left. right. left. reflexivity.
  - simpl. rewrite !in_app_iff. right. left. reflexivity.
  - rewrite !emit_emit. eexists. eexists. reflexivity.
Qed.

End OneArgument.

(** C1 (as amended): with one argument and keys in the namespace, the run
    does what the run without argument does up to the usage hint.  Either
    the overview fails on a value it cannot render, and the run ends there
    exactly as the run without argument; or the overview completes, having
    printed the key count, the category breakdown, the sample keys and the
    memory and cache statistics and asked INFO for both, and the run then
    inspects the key where the run without argument prints the usage hint:
    the inspection keeps those lines and asks the server about the
    resolved key only. *)
Theorem one_argument_overview_then_inspection :
  forall (J : JsonLib) (Py : Interpreter) (s : startup) (env : environ)
         (argv0 key : pystr) (r : server),
    settings s = Ok env ->
    ping r = Pong ->
    scan r (env_namespace env ++ lit ":*") <> [] ->
    let namespace := env_namespace env in
    ((exists e : exn, fst (run s argv0 [] r) = Raise e) /\
     run s argv0 [key] r = run s argv0 [] r) \/
    (exists w : world,
       run s argv0 [] r =
         (Ok tt, emit (usage_lines env argv0 namespace) [] w) /\
       run s argv0 [key] r = inspect_key r key namespace w /\
       printed (lit "Found " ++
                str_of_int (len (scan r (namespace ++ lit ":*"))) ++
                lit " keys with namespace '" ++ namespace ++ lit "'") w =
         true /\
       printed (lit "Keys by type:") w = true /\
       printed (lit "Sample keys (first 10):") w = true /\
       printed (lit "Memory Statistics:") w = true /\
       printed (lit "Cache Statistics:") w = true /\
       In (INFO (lit "memory")) (calls w) /\
       In (INFO (lit "stats")) (calls w) /\
       exists lines cmds,
         snd (run s argv0 [key] r) = emit lines cmds w /\
         Forall (fun c => command_key c = Some (full_key_of key namespace))
                cmds).
Proof.
  intros J Py s env argv0 key r Hl Hp Hs namespace.
  pose proof (main_overview_then s env argv0 [] r Hl Hp Hs) as E0.
  pose proof (main_overview_then s env argv0 [key] r Hl Hp Hs) as E1.
  fold namespace in E0, E1.
  match type of E0 with
  | _ = _ ?w => set (w0 := w) in *
  end.
  destruct (overview_sections r namespace (scan r (namespace ++ lit ":*"))
              w0) as [[[]|e] w] eqn:E.
  - right. exists w.
    rewrite (bind_ok _ _ _ _ _ E) in E0.
    rewrite (bind_ok _ _ _ _ _ E) in E1.
    rewrite usage_hint_emit in E0.
    destruct (overview_sections_report _ _ _ _ _ E)
      as [H1 [H2 [H3 [H4 [H5 [H6 [lines [cmds Hw]]]]]]]].
    split; [exact E0|]. split; [exact E1|]. split.
    { rewrite Hw. apply printed_emit_old.
      unfold printed.
      change (stdout w0) with
        ([] ++ banner_lines env namespace ++
         [lit "Found " ++
          str_of_int (len (scan r (namespace ++ lit ":*"))) ++
          lit " keys with namespace '" ++ namespace ++ lit "'"; []]).
      rewrite app_nil_l, existsb_app. cbn [existsb].
      rewrite pystr_eqb_refl. cbn [orb]. apply orb_true_r. }
    repeat (split; [assumption|]).
    rewrite E1. apply inspect_key_one_key.
  - left. rewrite (bind_raise _ _ _ _ _ E) in E0.
    rewrite (bind_raise _ _ _ _ _ E) in E1. split.
    + exists e. rewrite E0. reflexivity.
    + rewrite E0, E1. reflexivity.
Qed.

Lemma one_argument_overview_then_inspection_witness :
  exists w : world,
    run example_startup script [] example_server =
      (Ok tt, emit (usage_lines example_env script (lit "ns")) [] w) /\
    run example_startup script [lit "queue"] example_server =
      inspect_key example_server (lit "queue") (lit "ns") w /\
    printed (lit "Found 4 keys with namespace 'ns'") w = true /\
    printed (lit "Keys by type:") w = true /\
    printed (lit "Cache Statistics:") w = true.
Proof.
  assert (Hs : scan example_server (env_namespace example_env ++ lit ":*")
               <> []) by discriminate.
  destruct (one_argument_overview_then_inspection json_integers
              example_interpreter example_startup example_env script
              (lit "queue") example_server eq_refl eq_refl Hs)
    as [[[e He] _]|[w [H0 [H1 [H2 [H3 [_ [_ [H4 _]]]]]]]]].
  - vm_compute in He. discriminate.
  - exists w. repeat split; assumption.
Defined.

(** The first case occurs: a sampled key whose remaining time cannot be
    rendered ends both runs in the sample loop, before the statistics and
    the inspection. *)
Lemma overview_can_fail :
  fst (run example_startup script [] lasting_server) =
    Raise OverflowError /\
  run example_startup script [lit "doc"] lasting_server =
    run example_startup script [] lasting_server /\
  calls (snd (run example_startup script [lit "doc"] lasting_server)) =
  [PING; KEYS (lit "ns:*"); TYPE (lit "ns:doc"); TTL (lit "ns:doc");
   MEMORY_USAGE (lit "ns:doc")].
Proof. split; [|split]; vm_compute; reflexivity. Qed.

(** C1 as stated fails: a run with the one argument ["missing"] prints the
    key count, the category breakdown, the sample keys and both statistics
    sections, and queries every sample key and INFO, before it looks the
    key up. *)
Lemma one_argument_prints_overview :
  let w := snd (run example_startup script [lit "missing"]
                  example_server) in
  printed (lit "Found 4 keys with namespace 'ns'") w = true /\
  printed (lit "Keys by type:") w = true /\
  printed (lit "  completion: 2 keys") w = true /\
  printed (lit "Sample keys (first 10):") w = true /\
  printed (lit "  1. ns:completion:x1") w = true /\
  printed (lit "Memory Statistics:") w = true /\
  printed (lit "  Used memory: 1.00 MB") w = true /\
  printed (lit "Cache Statistics:") w = true /\
  printed (lit "  Hit rate: 75.00%") w = true /\
  printed (lit "Key 'ns:missing' does not exist") w = true /\
  List.length (stdout w) = 40%nat /\
  calls w =
  [PING; KEYS (lit "ns:*");
   TYPE (lit "ns:completion:x1"); TTL (lit "ns:completion:x1");
   MEMORY_USAGE (lit "ns:completion:x1");
   TYPE (lit "ns:completion:x2"); TTL (lit "ns:completion:x2");
   MEMORY_USAGE (lit "ns:completion:x2");
   TYPE (lit "ns:embedding:y1"); TTL (lit "ns:embedding:y1");
   MEMORY_USAGE (lit "ns:embedding:y1");
   TYPE (lit "ns:queue"); TTL (lit "ns:queue");
   MEMORY_USAGE (lit "ns:queue");
   INFO (lit "memory"); INFO (lit "stats");
   EXISTS (lit "ns:missing")].
Proof. vm_compute. repeat split. Qed.

(** * Further properties *)

(** ** [format_bytes] on the sizes a float holds exactly *)

Lemma digits2_pos_bounds (p : positive) :
  2 ^ (Zpos (digits2_pos p) - 1) <= Zpos p < 2 ^ Zpos (digits2_pos p).
Proof.
  induction p as [p IH|p IH|]; simpl digits2_pos.
  - rewrite Pos2Z.inj_succ.
    replace (Z.succ (Zpos (digits2_pos p)) - 1) with
      (Z.succ (Zpos (digits2_pos p) - 1)) by lia.
    rewrite !Z.pow_succ_r by lia. lia.
  - rewrite Pos2Z.inj_succ.
    replace (Z.succ (Zpos (digits2_pos p)) - 1) with
      (Z.succ (Zpos (digits2_pos p) - 1)) by lia.
    rewrite !Z.pow_succ_r by lia. lia.
  - simpl. lia.
Qed.

Lemma binary_round_aux_canonical (s : bool) (m : positive) (e : Z) :
  digits2_pos m = 53%positive -> -1074 <= e <= 971 ->
  binary_round_aux prec emax s (Zpos m) e loc_Exact = S754_finite s m e.
Proof.
  intros Hd He. unfold binary_round_aux, shr_fexp, fexp, emin, Zdigits2.
  replace (Z.max (Z.pos (digits2_pos m) + e - prec) (3 - emax - prec) - e)
    with 0 by (rewrite Hd; unfold prec, emax; lia).
  cbn [shr shr_record_of_loc shr_m loc_of_shr_record round_nearest_even
       shr_r shr_s].
  replace (Z.max (Z.pos (digits2_pos m) + e - prec) (3 - emax - prec) - e)
    with 0 by (rewrite Hd; unfold prec, emax; lia).
  cbn [shr shr_record_of_loc shr_m]. unfold prec, emax.
  destruct (Z.leb_spec e (1024 - 53)); [reflexivity | lia].
Qed.

Lemma iter_xO_value (p k : positive) :
  Zpos (Pos.iter xO p k) = Zpos p * 2 ^ Zpos k.
Proof.
  induction k as [|k IH] using Pos.peano_ind.
  - simpl. lia.
  - rewrite Pos.iter_succ, Pos2Z.inj_xO, IH, Pos2Z.inj_succ.
    rewrite Z.pow_succ_r by lia. lia.
Qed.

Lemma iter_xO_digits (p k : positive) :
  digits2_pos (Pos.iter xO p k) = (digits2_pos p + k)%positive.
Proof.
  induction k as [|k IH] using Pos.peano_ind.
  - simpl. lia.
  - rewrite Pos.iter_succ. simpl digits2_pos. rewrite IH. lia.
Qed.

(** An integer below 2^53 is a float: its digits, moved to the top of the
    mantissa. *)
Lemma flt_exact (p : positive) :
  Zpos (digits2_pos p) <= 53 ->
  exists m : positive,
    flt (Zpos p) = S754_finite false m (Zpos (digits2_pos p) - 53) /\
    digits2_pos m = 53%positive /\
    Zpos m = Zpos p * 2 ^ (53 - Zpos (digits2_pos p)).
Proof.
  intros Hd. unfold flt, binary_normalize, binary_round, shl_align.
  unfold fexp, emin, prec, emax.
  replace (Z.max (Z.pos (digits2_pos p) + 0 - 53) (3 - 1024 - 53))
    with (Z.pos (digits2_pos p) - 53) by lia.
  destruct (Z.pos (digits2_pos p) - 53 - 0) as [|k|k] eqn:Ek.
  - exists p. assert (E : digits2_pos p = 53%positive) by lia.
    rewrite E. split; [|split].
    + apply (binary_round_aux_canonical false p 0 E). lia.
    + reflexivity.
    + simpl. lia.
  - lia.
  - exists (Pos.iter xO p k).
    assert (E : digits2_pos (Pos.iter xO p k) = 53%positive).
    { rewrite iter_xO_digits. lia. }
    split; [|split].
    + apply (binary_round_aux_canonical false _ _ E). lia.
    + exact E.
    + rewrite iter_xO_value. f_equal. f_equal. lia.
Qed.

Lemma div_eucl_exact (a b : Z) :
  0 < b -> Z.div_eucl (a * b) b = (a, 0).
Proof.
  intros Hb.
  pose proof (Z.div_mul a b ltac:(lia)) as Hq.
  pose proof (Z.mod_mul a b ltac:(lia)) as Hr.
  unfold Z.div, Z.modulo in Hq, Hr.
  destruct (Z.div_eucl (a * b) b) as [q r]. simpl in *. congruence.
Qed.

(** Dividing a normal float by 1024 lowers its exponent by ten. *)
Lemma fdiv_1024_exact (m : positive) (e : Z) :
  digits2_pos m = 53%positive -> -1000 <= e <= 900 ->
  fdiv (S754_finite false m e) (flt 1024) = S754_finite false m (e - 10).
Proof.
  intros Hd He. rewrite flt_1024. unfold fdiv, SFdiv, SFdiv_core_binary.
  unfold Zdigits2. rewrite Hd.
  change (digits2_pos 4503599627370496) with 53%positive.
  unfold fexp, emin, prec, emax.
  replace (Z.min (Z.max (53 + e - (53 + -42) - 53) (3 - 1024 - 53))
             (e - -42)) with (e - 11) by lia.
  replace (e - -42 - (e - 11)) with 53 by lia.
  rewrite Z.shiftl_mul_pow2 by lia.
  change (2 ^ 53) with (2 * 4503599627370496).
  rewrite Z.mul_assoc.
  rewrite (div_eucl_exact (Z.pos m * 2) 4503599627370496) by lia.
  change (new_location 4503599627370496 0) with loc_Exact.
  cbn [xorb].
  unfold binary_round_aux, shr_fexp, fexp, emin, Zdigits2.
  replace (Z.pos m * 2) with (Z.pos (m~0)) by lia.
  simpl digits2_pos. rewrite Hd.
  replace (Z.max (Z.pos (Pos.succ 53) + (e - 11) - 53) (3 - 1024 - 53) -
           (e - 11)) with 1 by lia.
  cbn [shr shr_record_of_loc iter_pos shr_1 orb shr_m loc_of_shr_record
       round_nearest_even].
  rewrite Hd.
  replace (Z.max (53 + (e - 11 + 1) - 53) (3 - 1024 - 53) - (e - 11 + 1))
    with 0 by lia.
  cbn [shr shr_m].
  destruct (Z.leb_spec (e - 11 + 1) (1024 - 53)); [|lia].
  f_equal. lia.
Qed.

Lemma fltb_1024 (m : positive) (e : Z) :
  digits2_pos m = 53%positive ->
  fltb (S754_finite false m e) (flt 1024) = (e <? -42).
Proof.
  intros Hd. rewrite flt_1024. unfold fltb, SFltb, SFcompare.
  pose proof (digits2_pos_bounds m) as Hb. rewrite Hd in Hb.
  destruct Hb as [Hb _].
  rewrite Pos.compare_cont_spec.
  unfold Pos.switch_Eq.
  assert (Hc : (m ?= 4503599627370496)%positive <> Lt).
  { rewrite Pos.compare_lt_iff. intros Hlt.
    apply Pos2Z.pos_lt_pos in Hlt.
    change (Z.pos 4503599627370496) with (2 ^ (53 - 1)) in Hlt. lia. }
  destruct (Z.compare_spec e (-42)) as [E|E|E];
    destruct (Z.ltb_spec e (-42)); try lia; try reflexivity.
  destruct ((m ?= 4503599627370496)%positive); congruence.
Qed.

(** Rounding to hundredths depends on the fraction only. *)
Lemma div_half_even_fraction (a1 b1 a2 b2 : Z) :
  0 < b1 -> 0 < b2 -> a1 * b2 = a2 * b1 ->
  div_half_even a1 b1 = div_half_even a2 b2.
Proof.
  intros H1 H2 E. unfold div_half_even. cbv zeta.
  pose proof (Z.div_mod a1 b1 ltac:(lia)) as D1.
  pose proof (Z.mod_pos_bound a1 b1 H1) as R1.
  pose proof (Z.div_mod a2 b2 ltac:(lia)) as D2.
  pose proof (Z.mod_pos_bound a2 b2 H2) as R2.
  assert (Hq : a1 / b1 = a2 / b2).
  { set (q1 := a1 / b1) in *. set (r1 := a1 mod b1) in *.
    apply (Z.div_unique a2 b2 q1 (a2 - b2 * q1)); [|lia].
    left. split; nia. }
  assert (Hr : (a1 mod b1) * b2 = (a2 mod b2) * b1).
  { rewrite Hq in D1. nia. }
  rewrite Hq.
  destruct (Z.compare_spec (2 * (a1 mod b1)) b1) as [C1|C1|C1];
    destruct (Z.compare_spec (2 * (a2 mod b2)) b2) as [C2|C2|C2];
    try reflexivity; exfalso; nia.
Qed.

(** The text of a positive float holding the fraction [n / b]. *)
Lemma format_2f_fraction (m : positive) (e n b : Z) :
  e < 0 -> 0 < b -> Zpos m * b = n * 2 ^ (- e) ->
  format_2f (S754_finite false m e) =
  fixed2 false (div_half_even (100 * n) b).
Proof.
  intros He Hb E. unfold format_2f, hundredths.
  destruct (Z.leb_spec 0 e); [lia|].
  f_equal. apply div_half_even_fraction; [|exact Hb|].
  - apply Z.pow_pos_nonneg; lia.
  - nia.
Qed.

Lemma digits_upper (p : positive) (c : Z) :
  0 <= c -> Zpos p < 2 ^ c -> Zpos (digits2_pos p) <= c.
Proof.
  intros Hc H. pose proof (digits2_pos_bounds p) as [Hl _].
  assert (2 ^ (Zpos (digits2_pos p) - 1) < 2 ^ c) by lia.
  apply Z.pow_lt_mono_r_iff in H0; lia.
Qed.

Lemma digits_lower (p : positive) (c : Z) :
  0 <= c -> 2 ^ c <= Zpos p -> c < Zpos (digits2_pos p).
Proof.
  intros Hc H. pose proof (digits2_pos_bounds p) as [_ Hu].
  assert (2 ^ c < 2 ^ Zpos (digits2_pos p)) by lia.
  apply Z.pow_lt_mono_r_iff in H0; lia.
Qed.

Lemma pow_1024 (j : Z) : 0 <= j -> 1024 ^ j = 2 ^ (10 * j).
Proof. intros H. rewrite Z.pow_mul_r by lia. reflexivity. Qed.

Lemma mantissa_fraction (m p : positive) (j : Z) :
  let d := Zpos (digits2_pos p) in
  d <= 53 -> 0 <= j ->
  Zpos m = Zpos p * 2 ^ (53 - d) ->
  Zpos m * 1024 ^ j = Zpos p * 2 ^ (- (d - 53 - 10 * j)).
Proof.
  intros d Hd Hj Hm. rewrite Hm, pow_1024 by exact Hj.
  replace (- (d - 53 - 10 * j)) with ((53 - d) + 10 * j) by lia.
  rewrite Z.pow_add_r by lia. lia.
Qed.

(** X1. For a size below 2^53 the text of [format_bytes] is exact: with
    [k] the number of the unit (0 for B up to 4 for TB), chosen as the
    first one whose bound of 1024^(k+1) the size is under and TB otherwise,
    the figure is the size over 1024^k rounded to hundredths, ties to
    even. *)
Theorem format_bytes_exact (n : Z) (k : nat) :
  0 <= n < 2 ^ 53 -> (k <= 4)%nat ->
  ((k < 4)%nat -> n < 1024 ^ (Z.of_nat k + 1)) ->
  ((0 < k)%nat -> 1024 ^ Z.of_nat k <= n) ->
  format_bytes n =
  Ok (fixed2 false (div_half_even (100 * n) (1024 ^ Z.of_nat k)) ++
      lit " " ++ nth k unit_names []).
Proof.
  intros Hn Hk Hlt Hge.
  destruct n as [|p|p]; [| |lia].
  - destruct k as [|k]; [reflexivity|].
    exfalso. specialize (Hge ltac:(lia)).
    pose proof (Z.pow_pos_nonneg 1024 (Z.of_nat (S k)) ltac:(lia) ltac:(lia)).
    lia.
  - assert (Hd : Zpos (digits2_pos p) <= 53)
      by (apply digits_upper; lia).
    destruct (flt_exact p Hd) as [m [Hf [Hm53 Hm]]].
    set (d := Zpos (digits2_pos p)) in *.
    unfold format_bytes.
    cbn [format_bytes_loop num_lt_const num_div_const format_2f_num].
    rewrite (float_of_int_ok (Zpos p))
      by (pose proof float_overflow_large; change (2 ^ 53) with
            9007199254740992 in Hn;
          change (2 ^ 70) with 1180591620717411303424 in *; lia).
    cbn [rbind]. rewrite Hf.
    rewrite !fdiv_1024_exact by (assumption || lia).
    rewrite !fltb_1024 by assumption.
    assert (Hfmt : forall j : Z, 0 <= j -> d - 53 - 10 * j < 0 ->
              format_2f (S754_finite false m (d - 53 - 10 * j)) =
              fixed2 false (div_half_even (100 * Zpos p) (1024 ^ j))).
    { intros j Hj He. apply format_2f_fraction; [exact He| |].
      - apply Z.pow_pos_nonneg; lia.
      - apply mantissa_fraction; assumption. }
    destruct (Z.ltb_spec (Zpos p) 1024) as [Hsmall|Hbig].
    + assert (k = 0%nat).
      { destruct k as [|k]; [reflexivity|]. exfalso.
        specialize (Hge ltac:(lia)).
        assert (1024 ^ 1 <= 1024 ^ Z.of_nat (S k))
          by (apply Z.pow_le_mono_r; lia).
        change (1024 ^ 1) with 1024 in *. lia. }
      subst k.
      assert (d <= 10) by (apply digits_upper; [lia|exact Hsmall]).
      replace (d - 53) with (d - 53 - 10 * 0) by lia.
      rewrite Hfmt by lia. reflexivity.
    + assert (Hlow : 10 < d)
        by (apply digits_lower; [lia | exact Hbig]).
      destruct k as [|[|[|[|[|k]]]]]; [lia | | | | | lia].
      * specialize (Hlt ltac:(lia)).
        change (1024 ^ (Z.of_nat 1 + 1)) with (2 ^ 20) in Hlt.
        assert (d <= 20) by (apply digits_upper; [lia|exact Hlt]).
        destruct (Z.ltb_spec (d - 53 - 10) (-42)); [|lia].
        replace (d - 53 - 10) with (d - 53 - 10 * 1) by lia.
        rewrite Hfmt by lia. reflexivity.
      * specialize (Hlt ltac:(lia)). specialize (Hge ltac:(lia)).
        change (1024 ^ (Z.of_nat 2 + 1)) with (2 ^ 30) in Hlt.
        change (1024 ^ Z.of_nat 2) with (2 ^ 20) in Hge.
        assert (d <= 30) by (apply digits_upper; [lia|exact Hlt]).
        assert (20 < d) by (apply digits_lower; [lia|exact Hge]).
        destruct (Z.ltb_spec (d - 53 - 10) (-42)); [lia|].
        destruct (Z.ltb_spec (d - 53 - 10 - 10) (-42)); [|lia].
        replace (d - 53 - 10 - 10) with (d - 53 - 10 * 2) by lia.
        rewrite Hfmt by lia. reflexivity.
      * specialize (Hlt ltac:(lia)). specialize (Hge ltac:(lia)).
        change (1024 ^ (Z.of_nat 3 + 1)) with (2 ^ 40) in Hlt.
        change (1024 ^ Z.of_nat 3) with (2 ^ 30) in Hge.
        assert (d <= 40) by (apply digits_upper; [lia|exact Hlt]).
        assert (30 < d) by (apply digits_lower; [lia|exact Hge]).
        destruct (Z.ltb_spec (d - 53 - 10) (-42)); [lia|].
        destruct (Z.ltb_spec (d - 53 - 10 - 10) (-42)); [lia|].
        destruct (Z.ltb_spec (d - 53 - 10 - 10 - 10) (-42)); [|lia].
        replace (d - 53 - 10 - 10 - 10) with (d - 53 - 10 * 3) by lia.
        rewrite Hfmt by lia. reflexivity.
      * specialize (Hge ltac:(lia)).
        change (1024 ^ Z.of_nat 4) with (2 ^ 40) in Hge.
        assert (40 < d) by (apply digits_lower; [lia|exact Hge]).
        destruct (Z.ltb_spec (d - 53 - 10) (-42)); [lia|].
        destruct (Z.ltb_spec (d - 53 - 10 - 10) (-42)); [lia|].
        destruct (Z.ltb_spec (d - 53 - 10 - 10 - 10) (-42)); [lia|].
        replace (d - 53 - 10 - 10 - 10 - 10) with (d - 53 - 10 * 4) by lia.
        rewrite Hfmt by lia. reflexivity.
Qed.

Lemma format_bytes_exact_witness :
  format_bytes 1536 = Ok (lit "1.50 KB") /\
  format_bytes 1029 = Ok (lit "1.00 KB") /\
  format_bytes (5 * 1024 ^ 4) = Ok (lit "5.00 TB").
Proof.
  split; [|split].
  - apply (format_bytes_exact 1536 1); simpl; lia.
  - apply (format_bytes_exact 1029 1); simpl; lia.
  - apply (format_bytes_exact (5 * 1024 ^ 4) 4); simpl; lia.
Defined.

(** ** Grouping keys by prefix *)



Lemma pystr_eqb_eq (a b : pystr) : pystr_eqb a b = true <-> a = b.
Proof.
  revert b. induction a as [|x a IH]; intros [|y b]; simpl;
    try (split; [discriminate | discriminate]); try (split; reflexivity).
  rewrite andb_true_iff, N.eqb_eq, IH. split.
  - intros [-> ->]. reflexivity.
  - intros E. injection E as -> ->. split; reflexivity.
Qed.

Lemma pystr_eqb_neq (a b : pystr) : pystr_eqb a b = false <-> a <> b.
Proof.
  rewrite <- pystr_eqb_eq. destruct (pystr_eqb a b); split; congruence.
Qed.

Lemma dict_get_set {V} (d : dict V) (k k' : pystr) (v : V) :
  dict_get (dict_set d k v) k' =
  if pystr_eqb k k' then Some v else dict_get d k'.
Proof.
  induction d as [|[k0 v0] d IH]; simpl.
  - reflexivity.
  - destruct (pystr_eqb k0 k) eqn:E0; simpl.
    + apply pystr_eqb_eq in E0. subst k0.
      destruct (pystr_eqb k k'); reflexivity.
    + rewrite IH. destruct (pystr_eqb k0 k') eqn:E1; [|reflexivity].
      apply pystr_eqb_eq in E1. subst k'.
      apply pystr_eqb_neq in E0.
      destruct (pystr_eqb k k0) eqn:E2; [|reflexivity].
      apply pystr_eqb_eq in E2. congruence.
Qed.

Lemma dict_get_add_key (namespace : pystr) (g : dict (list pystr))
  (key p : pystr) :
  dict_get (add_key namespace g key) p =
  if has_prefix namespace p key
  then Some (dict_get_default g p [] ++ [key])
  else dict_get g p.
Proof.
  unfold add_key, has_prefix. cbv zeta.
  set (prefix := prefix_of namespace key).
  rewrite dict_get_set.
  destruct (pystr_eqb prefix p) eqn:E.
  - apply pystr_eqb_eq in E. subst p.
    destruct (dict_get g prefix) as [l|] eqn:G.
    + unfold dict_get_default. rewrite G. reflexivity.
    + unfold dict_get_default. rewrite dict_get_set, pystr_eqb_refl, G.
      reflexivity.
  - destruct (dict_get g prefix) as [l|] eqn:G; [reflexivity|].
    rewrite dict_get_set, E. reflexivity.
Qed.

Lemma key_groups_snoc (namespace : pystr) (keys : list pystr) (key : pystr) :
  key_groups namespace (keys ++ [key]) =
  add_key namespace (key_groups namespace keys) key.
Proof. unfold key_groups. rewrite fold_left_app. reflexivity. Qed.

Lemma key_groups_lookup (namespace : pystr) (keys : list pystr)
  (p : pystr) :
  dict_get (key_groups namespace keys) p =
  match filter (has_prefix namespace p) keys with
  | [] => None
  | group => Some group
  end.
Proof.
  induction keys as [|key keys IH] using rev_ind.
  - reflexivity.
  - rewrite key_groups_snoc, dict_get_add_key, filter_app. simpl.
    unfold dict_get_default. rewrite IH.
    destruct (has_prefix namespace p key).
    + destruct (filter (has_prefix namespace p) keys); reflexivity.
    + rewrite app_nil_r. reflexivity.
Qed.

(** X2. Each category of the grouping holds exactly the keys of its
    prefix, in the order of the scan; only the prefix of some key is a
    category, and every key of the scan is in the category of its
    prefix. *)
Theorem key_groups_content (namespace : pystr) (keys : list pystr)
  (p : pystr) :
  dict_get (key_groups namespace keys) p =
  match filter (has_prefix namespace p) keys with
  | [] => None
  | group => Some group
  end /\
  Forall (fun key =>
            exists group,
              dict_get (key_groups namespace keys)
                (prefix_of namespace key) = Some group /\
              In key group) keys.
Proof.
  split; [apply key_groups_lookup|].
  apply Forall_forall. intros key Hin.
  rewrite key_groups_lookup.
  assert (Hf : In key (filter (has_prefix namespace
                                 (prefix_of namespace key)) keys)).
  { apply filter_In. split; [exact Hin|].
    unfold has_prefix. apply pystr_eqb_refl. }
  destruct (filter (has_prefix namespace (prefix_of namespace key)) keys)
    as [|k group]; [contradiction|].
  exists (k :: group). split; [reflexivity | exact Hf].
Qed.

(** *** The order of categories *)

Lemma pystr_ltb_trans (a b c : pystr) :
  pystr_ltb a b = true -> pystr_ltb b c = true -> pystr_ltb a c = true.
Proof.
  revert b c. induction a as [|x a IH]; intros [|y b] [|z c]; simpl;
    try discriminate; try reflexivity.
  destruct (N.ltb_spec x y), (N.ltb_spec y x); try lia; try discriminate;
    destruct (N.ltb_spec y z), (N.ltb_spec z y); try lia; try discriminate;
    destruct (N.ltb_spec x z), (N.ltb_spec z x); try lia;
    try reflexivity; try discriminate.
  apply IH.
Qed.

Lemma pystr_ltb_total (a b : pystr) :
  pystr_ltb a b = false -> a <> b -> pystr_ltb b a = true.
Proof.
  revert b. induction a as [|x a IH]; intros [|y b]; simpl;
    try discriminate; try reflexivity; try congruence.
  destruct (N.ltb_spec x y), (N.ltb_spec y x); try lia; try discriminate;
    try reflexivity.
  intros Hlt Hne. apply IH; [exact Hlt|].
  assert (x = y) by lia. congruence.
Qed.

Lemma dict_get_none {V} (d : dict V) (k : pystr) :
  dict_get d k = None <-> ~ In k (map fst d).
Proof.
  induction d as [|[k0 v0] d IH]; simpl.
  - tauto.
  - destruct (pystr_eqb k0 k) eqn:E.
    + apply pystr_eqb_eq in E. split; [discriminate | tauto].
    + apply pystr_eqb_neq in E. rewrite IH. tauto.
Qed.

Lemma dict_set_keys {V} (d : dict V) (k : pystr) (v : V) :
  map fst (dict_set d k v) =
  match dict_get d k with
  | Some _ => map fst d
  | None => map fst d ++ [k]
  end.
Proof.
  induction d as [|[k0 v0] d IH]; simpl; [reflexivity|].
  destruct (pystr_eqb k0 k) eqn:E; simpl; [reflexivity|].
  rewrite IH. destruct (dict_get d k); reflexivity.
Qed.

Lemma dict_set_nodup {V} (d : dict V) (k : pystr) (v : V) :
  NoDup (map fst d) -> NoDup (map fst (dict_set d k v)).
Proof.
  intros H. rewrite dict_set_keys.
  destruct (dict_get d k) eqn:G; [exact H|].
  apply dict_get_none in G.
  apply NoDup_app; [exact H | repeat constructor; simpl; tauto |].
  intros x Hx [<-|[]]. contradiction.
Qed.

(** The categories are distinct. *)
Lemma key_groups_nodup (namespace : pystr) (keys : list pystr) :
  NoDup (map fst (key_groups namespace keys)).
Proof.
  induction keys as [|key keys IH] using rev_ind.
  - constructor.
  - rewrite key_groups_snoc. unfold add_key. cbv zeta.
    apply dict_set_nodup.
    destruct (dict_get (key_groups namespace keys) _);
      [exact IH | apply dict_set_nodup, IH].
Qed.

Lemma insert_item_in {V} (kv x : pystr * V) (l : list (pystr * V)) :
  In x (insert_item kv l) <-> x = kv \/ In x l.
Proof.
  induction l as [|kv' l IH]; simpl.
  - intuition congruence.
  - destruct (pystr_ltb (fst kv) (fst kv')); simpl; [intuition congruence|].
    rewrite IH. intuition congruence.
Qed.

Lemma sorted_items_in {V} (d : dict V) (x : pystr * V) :
  In x (sorted_items d) <-> In x d.
Proof.
  unfold sorted_items. induction d as [|kv d IH]; simpl; [tauto|].
  rewrite insert_item_in, IH. intuition congruence.
Qed.

Lemma insert_item_sorted {V} (kv : pystr * V) (l : list (pystr * V)) :
  StronglySorted item_lt l -> ~ In (fst kv) (map fst l) ->
  StronglySorted item_lt (insert_item kv l).
Proof.
  induction l as [|kv' l IH]; intros Hs Hn; simpl.
  - repeat constructor.
  - inversion Hs as [|? ? Hs' Hall]; subst.
    destruct (pystr_ltb (fst kv) (fst kv')) eqn:E.
    + constructor; [exact Hs|]. constructor; [exact E|].
      eapply Forall_impl; [|exact Hall].
      intros x Hx. unfold item_lt in *.
      eapply pystr_ltb_trans; eassumption.
    + simpl in Hn.
      constructor; [apply IH; [exact Hs' | tauto]|].
      apply Forall_forall. intros x Hx.
      apply insert_item_in in Hx. destruct Hx as [->|Hx].
      * apply pystr_ltb_total; [exact E|].
        intros E'. apply Hn. left. symmetry. exact E'.
      * rewrite Forall_forall in Hall. apply Hall, Hx.
Qed.

Lemma sorted_items_sorted {V} (d : dict V) :
  NoDup (map fst d) -> StronglySorted item_lt (sorted_items d).
Proof.
  unfold sorted_items. induction d as [|kv d IH]; intros Hn; simpl.
  - constructor.
  - inversion Hn as [|? ? Hk Hn']; subst.
    apply insert_item_sorted; [apply IH, Hn'|].
    intros Hin. apply Hk.
    apply in_map_iff in Hin. destruct Hin as [x [Ex Hx]].
    apply in_map_iff. exists x. split; [exact Ex|].
    apply (sorted_items_in d x), Hx.
Qed.

Lemma category_lines_emit (d : list (pystr * list pystr)) (w : world) :
  for_each d
    (fun '(prefix, group_keys) =>
       print (lit "  " ++ prefix ++ lit ": " ++
              str_of_int (len group_keys) ++ lit " keys")) w =
  (Ok tt, emit (map category_line d) [] w).
Proof.
  apply for_each_lines. intros [p g] w'. apply print_emit.
Qed.

(** X3. The breakdown prints its heading, one line per category and an
    empty line; the categories come in strictly increasing order of their
    names, each once, and a category is listed exactly when some key has
    its prefix, with the number of those keys. *)
Theorem keys_by_type_sorted (namespace : pystr) (keys : list pystr)
  (w : world) :
  keys_by_type namespace keys w =
  (Ok tt,
   emit (lit "Keys by type:" ::
         map category_line (sorted_items (key_groups namespace keys)) ++
         [[]]) [] w) /\
  StronglySorted item_lt (sorted_items (key_groups namespace keys)) /\
  (forall (p : pystr) (group : list pystr),
     In (p, group) (sorted_items (key_groups namespace keys)) <->
     group <> [] /\ group = filter (has_prefix namespace p) keys).
Proof.
  split; [|split].
  - unfold keys_by_type. rewrite bind_print. cbv beta.
    rewrite (bind_ok _ _ _ _ _ (category_lines_emit _ _)).
    rewrite print_emit, !emit_emit. reflexivity.
  - apply sorted_items_sorted, key_groups_nodup.
  - intros p group. rewrite sorted_items_in.
    pose proof (key_groups_lookup namespace keys p) as Hc.
    split.
    + intros Hin.
      assert (Hg : dict_get (key_groups namespace keys) p = Some group).
      { pose proof (key_groups_nodup namespace keys) as Hn.
        revert Hin Hn. generalize (key_groups namespace keys) as d.
        induction d as [|[k0 v0] d IH]; simpl; [tauto|].
        intros [E|Hin] Hn.
        - injection E as -> ->. rewrite pystr_eqb_refl. reflexivity.
        - inversion Hn as [|? ? Hk Hn']; subst.
          destruct (pystr_eqb k0 p) eqn:E.
          + apply pystr_eqb_eq in E. subst k0. exfalso. apply Hk.
            apply in_map_iff. exists (p, group). split; [reflexivity|exact Hin].
          + apply IH; assumption. }
      rewrite Hg in Hc.
      destruct (filter (has_prefix namespace p) keys) eqn:F;
        [discriminate|].
      injection Hc as ->. split; [discriminate | reflexivity].
    + intros [Hne ->].
      destruct (filter (has_prefix namespace p) keys) as [|k l] eqn:F;
        [contradiction|].
      clear Hne. revert Hc. generalize (key_groups namespace keys) as d.
      induction d as [|[k0 v0] d IH]; simpl; [discriminate|].
      destruct (pystr_eqb k0 p) eqn:E.
      * apply pystr_eqb_eq in E. subst k0. intros Hc.
        injection Hc as ->. left. reflexivity.
      * intros Hc. right. apply IH, Hc.
Qed.



(** ** The inspector: the other outcomes *)

Section OtherBranches.
Context {J : JsonLib} {Py : Interpreter}.

(** X4. Inspecting a key the server does not hold prints the one line
    that the key does not exist, with the resolved name, and sends EXISTS
    and nothing else. *)
Theorem inspect_missing_key (r : server) (key namespace : pystr)
  (w : world) :
  let full_key := full_key_of key namespace in
  dict_get (keyspace r) full_key = None ->
  inspect_key r key namespace w =
  (Ok tt,
   emit [lit "Key '" ++ full_key ++ lit "' does not exist"]
        [EXISTS full_key] w).
Proof.
  intros full_key Hn. unfold inspect_key. fold full_key.
  unfold r_exists, redis_exists. rewrite Hn.
  repeat (step; cbv beta). cbn [negb].
  rewrite print_emit, emit_emit. reflexivity.
Qed.


Lemma inspect_set_lines (r : server) (full_key : pystr) (e : entry)
  (members : list pystr) (w : world) :
  dict_get (keyspace r) full_key = Some e ->
  value e = RSet members ->
  inspect_set r full_key w =
  (Ok tt, emit (set_lines (set_iter members)) [SMEMBERS full_key] w).
Proof.
  intros He Hv. unfold inspect_set, r_smembers, set_lines.
  rewrite He, Hv. repeat (step; cbv beta).
  rewrite (bind_ok _ _ _ _ _
             (for_each_lines (fun member => lit "  - " ++ member) _ _
                (fun member w' => print_emit _ w') _)).
  destruct (10 <? len (set_iter members)).
  - rewrite print_emit, !emit_emit. simpl app.
    rewrite <- ?app_assoc. reflexivity.
  - unfold ret. rewrite !emit_emit. simpl app.
    rewrite ?app_nil_r. reflexivity.
Qed.

End OtherBranches.

Section OtherOutcomes.
Context {J : JsonLib} {Py : Interpreter}.


(** X6. For a set key whose TTL renders, the inspector prints the four
    header texts, the number of distinct members, up to ten of them and,
    beyond ten, the number left out.  The members shown are distinct
    members of the set, taken in the order in which the interpreter
    iterates the set, which the reply does not fix: when the reply holds
    each member once the iteration is a permutation of it, and with at
    most ten members every one is shown.  Four commands and, for the set
    part, at most twelve calls of [print]. *)
Theorem set_preview (r : server) (key namespace : pystr) (e : entry)
  (members : list pystr) (shown : pystr) (w : world) :
  let full_key := full_key_of key namespace in
  let iterated := set_iter members in
  dict_get (keyspace r) full_key = Some e ->
  value e = RSet members ->
  format_ttl (redis_ttl r full_key) = Ok shown ->
  inspect_key r key namespace w =
  (Ok tt,
   emit (header_lines full_key (lit "set") shown ++ set_lines iterated)
        [EXISTS full_key; TYPE full_key; TTL full_key; SMEMBERS full_key]
        w) /\
  NoDup iterated /\
  (forall member, In member iterated <-> In member members) /\
  (NoDup members -> Permutation iterated members) /\
  (len iterated <= 10 -> slice_to 10 iterated = iterated) /\
  (List.length (set_lines iterated) <= 12)%nat.
Proof.
  intros full_key iterated He Hv Ht.
  split; [|split; [|split; [|split; [|split]]]].
  - rewrite (inspect_key_existing r key namespace e shown w He Ht).
    fold full_key.
    assert (Hty : redis_type r full_key = lit "set").
    { unfold redis_type. rewrite He, Hv. reflexivity. }
    rewrite Hty. unfold dispatch.
    change (pystr_eqb (lit "set") (lit "string")) with false.
    change (pystr_eqb (lit "set") (lit "hash")) with false.
    change (pystr_eqb (lit "set") (lit "list")) with false.
    change (pystr_eqb (lit "set") (lit "set")) with true.
    cbv iota.
    rewrite (inspect_set_lines r full_key e members _ He Hv), emit_emit.
    reflexivity.
  - apply set_iter_nodup.
  - apply set_iter_in.
  - intros Hn. apply NoDup_Permutation;
      [apply set_iter_nodup | exact Hn | apply set_iter_in].
  - intros Hl. unfold slice_to, len in *. apply firstn_all2. lia.
  - unfold set_lines. rewrite !length_app, length_map. unfold slice_to.
    rewrite length_firstn.
    destruct (10 <? len iterated); cbn [List.length]; lia.
Qed.

(** X7. For a key of a type without a branch (a sorted set, a stream)
    whose TTL renders, the inspector prints the four header texts with the
    reported type and stops: no value is read. *)
Theorem other_type_header_only (r : server) (key namespace : pystr)
  (e : entry) (t shown : pystr) (w : world) :
  let full_key := full_key_of key namespace in
  dict_get (keyspace r) full_key = Some e ->
  value e = ROther t ->
  known_type t = false ->
  format_ttl (redis_ttl r full_key) = Ok shown ->
  inspect_key r key namespace w =
  (Ok tt,
   emit (header_lines full_key t shown)
        [EXISTS full_key; TYPE full_key; TTL full_key] w).
Proof.
  intros full_key He Hv Hk Ht.
  rewrite (inspect_key_existing r key namespace e shown w He Ht).
  fold full_key.
  assert (Hty : redis_type r full_key = t).
  { unfold redis_type. rewrite He, Hv. reflexivity. }
  rewrite Hty. unfold dispatch. unfold known_type in Hk.
  apply orb_false_elim in Hk. destruct Hk as [Hk H4].
  apply orb_false_elim in Hk. destruct Hk as [Hk H3].
  apply orb_false_elim in Hk. destruct Hk as [H1 H2].
  rewrite H1, H2, H3, H4. reflexivity.
Qed.

End OtherOutcomes.

Lemma inspect_missing_key_witness :
  inspect_key example_server (lit "missing") (lit "ns") initial_world =
  (Ok tt,
   emit [lit "Key 'ns:missing' does not exist"]
        [EXISTS (lit "ns:missing")] initial_world).
Proof.
  apply (inspect_missing_key example_server (lit "missing") (lit "ns")).
  reflexivity.
Defined.


Lemma set_preview_witness :
  inspect_key limited_server (lit "tags") (lit "ns") initial_world =
  (Ok tt,
   emit [newline ++ repeat_char "=" 60;
         lit "Key: ns:tags";
         lit "Type: set";
         lit "TTL: 90 seconds (0.03 hours)";
         lit "Set members (12):";
         lit "  - l"; lit "  - k"; lit "  - j"; lit "  - i"; lit "  - h";
         lit "  - g"; lit "  - f"; lit "  - e"; lit "  - d"; lit "  - c";
         lit "  ... and 2 more members"]
        [EXISTS (lit "ns:tags"); TYPE (lit "ns:tags");
         TTL (lit "ns:tags"); SMEMBERS (lit "ns:tags")]
        initial_world).
Proof.
  exact (proj1 (set_preview limited_server (lit "tags") (lit "ns")
                  (example_entry (RSet twelve_members))
                  twelve_members (lit "90 seconds (0.03 hours)")
                  initial_world eq_refl eq_refl eq_refl)).
Defined.

Lemma other_type_header_only_witness :
  inspect_key limited_server (lit "board") (lit "ns") initial_world =
  (Ok tt,
   emit [newline ++ repeat_char "=" 60;
         lit "Key: ns:board";
         lit "Type: zset";
         lit "TTL: 90 seconds (0.03 hours)"]
        [EXISTS (lit "ns:board"); TYPE (lit "ns:board");
         TTL (lit "ns:board")]
        initial_world).
Proof.
  apply (other_type_header_only limited_server (lit "board") (lit "ns")
           (example_entry (ROther (lit "zset"))) (lit "zset")
           (lit "90 seconds (0.03 hours)") initial_world);
    reflexivity.
Defined.

(** ** Resolving the key *)

(** X8. The key that [inspect_key] looks up always starts with the
    namespace, and resolving it again changes nothing; a key that starts
    with the namespace is taken as it is, also when no colon follows the
    namespace in it. *)
Theorem full_key_resolution (key namespace rest : pystr) :
  startswith (full_key_of key namespace) namespace = true /\
  full_key_of (full_key_of key namespace) namespace =
    full_key_of key namespace /\
  full_key_of (namespace ++ rest) namespace = namespace ++ rest.
Proof.
  assert (H1 : startswith (full_key_of key namespace) namespace = true).
  { unfold full_key_of. destruct (startswith key namespace) eqn:E; simpl.
    - exact E.
    - apply startswith_app. }
  split; [exact H1|]. split.
  - unfold full_key_of at 1. rewrite H1. reflexivity.
  - unfold full_key_of. rewrite startswith_app. reflexivity.
Qed.



(** ** What a run can raise *)

Lemma int_truediv_raises (a b : Z) (e : exn) :
  b <> 0 -> int_truediv a b = Raise e -> e = OverflowError.
Proof.
  intros Hb. unfold int_truediv.
  destruct (Z.eqb_spec b 0); [contradiction|].
  destruct (float_overflow * Z.abs b <=? Z.abs a); congruence.
Qed.

Lemma float_of_int_raises (z : Z) (e : exn) :
  float_of_int z = Raise e -> e = OverflowError.
Proof.
  unfold float_of_int. destruct (Z.abs z <? float_overflow); congruence.
Qed.

Lemma format_2f_num_raises (v : pynum) (e : exn) :
  format_2f_num v = Raise e -> e = OverflowError.
Proof.
  destruct v as [z|x]; simpl; [|discriminate].
  destruct (float_of_int z) eqn:E; simpl; [discriminate|].
  intros H. injection H as <-. apply (float_of_int_raises z), E.
Qed.

Lemma format_bytes_raises (n : Z) (e : exn) :
  format_bytes n = Raise e -> e = OverflowError.
Proof.
  unfold format_bytes.
  cbn [format_bytes_loop num_lt_const num_div_const format_2f_num].
  destruct (float_of_int n) as [x|e'] eqn:E; cbn [rbind].
  - destruct (n <? 1024); [discriminate|].
    destruct (format_bytes_loop_float_ok [lit "KB"; lit "MB"; lit "GB"]
                (fdiv x (flt 1024))) as [s Hs].
    intros H.
    change (format_bytes_loop [lit "KB"; lit "MB"; lit "GB"]
              (PFloat (fdiv x (flt 1024))) = Raise e) in H.
    rewrite Hs in H. discriminate.
  - apply float_of_int_raises in E. subst e'.
    destruct (n <? 1024); congruence.
Qed.

Lemma format_ttl_raises (ttl : Z) (e : exn) :
  format_ttl ttl = Raise e -> e = OverflowError.
Proof.
  unfold format_ttl.
  destruct (ttl =? -1); [discriminate|].
  destruct (ttl =? -2); [discriminate|].
  unfold timedelta_of_seconds. cbv zeta.
  destruct (999999999 <? Z.abs (ttl / 86400)); cbn [rbind]; [congruence|].
  destruct (total_seconds _) as [secs|e'] eqn:E; cbn [rbind];
    [discriminate|].
  intros H. injection H as <-.
  unfold total_seconds in E.
  apply int_truediv_raises in E; [exact E | discriminate].
Qed.

Lemma hit_rate_raises (hits misses : Z) (e : exn) :
  hit_rate hits misses = Raise e -> e = OverflowError.
Proof.
  unfold hit_rate. cbv zeta.
  destruct (Z.ltb_spec 0 (hits + misses)) as [Hpos|Hneg]; [|discriminate].
  destruct (int_truediv hits (hits + misses)) as [q|e'] eqn:E;
    cbn [rbind]; [discriminate|].
  intros H. injection H as <-.
  apply int_truediv_raises in E; [exact E | lia].
Qed.

Section RaisesOnly.
Variable P : exn -> Prop.

Lemma raises_only_ret {A} (a : A) : raises_only P (ret a).
Proof. intros w e H. discriminate. Qed.

Lemma raises_only_print (line : pystr) : raises_only P (print line).
Proof. intros w e H. discriminate. Qed.

Lemma raises_only_bind {A B} (m : M A) (k : A -> M B) :
  raises_only P m -> (forall a, raises_only P (k a)) ->
  raises_only P (bind m k).
Proof.
  intros Hm Hk w e. unfold bind.
  destruct (m w) as [[a|e'] w'] eqn:E.
  - apply Hk.
  - simpl. intros H. injection H as <-. apply (Hm w). rewrite E. reflexivity.
Qed.

Lemma raises_only_assoc {A B C} (m : M A) (f : A -> M B) (g : B -> M C) :
  raises_only P (bind m (fun a => bind (f a) g)) ->
  raises_only P (bind (bind m f) g).
Proof. intros H w e. rewrite bind_assoc. apply H. Qed.

Lemma raises_only_send {B} (c : command) (k : unit -> M B) :
  raises_only P (k tt) -> raises_only P (bind (send c) k).
Proof. intros H w e. rewrite bind_send. apply H. Qed.

Lemma raises_only_print_then {B} (line : pystr) (k : unit -> M B) :
  raises_only P (k tt) -> raises_only P (bind (print line) k).
Proof. intros H w e. rewrite bind_print. apply H. Qed.

Lemma raises_only_ret_then {A B} (a : A) (k : A -> M B) :
  raises_only P (k a) -> raises_only P (bind (ret a) k).
Proof. intros H w e. rewrite bind_ret. apply H. Qed.

Lemma raises_only_lift_then {A B} (r : result A) (k : A -> M B) :
  (forall e, r = Raise e -> P e) ->
  (forall a, r = Ok a -> raises_only P (k a)) ->
  raises_only P (bind (lift r) k).
Proof.
  intros Hr Hk w e. unfold bind, lift. destruct r as [a|e'].
  - apply (Hk a eq_refl).
  - simpl. intros H. injection H as <-. apply Hr. reflexivity.
Qed.

Lemma raises_only_for_each {A} (l : list A) (body : A -> M unit) :
  (forall x, raises_only P (body x)) -> raises_only P (for_each l body).
Proof.
  intros Hb. induction l as [|x l IH]; simpl.
  - apply raises_only_ret.
  - apply raises_only_bind; [apply Hb | intros _; exact IH].
Qed.

End RaisesOnly.

Ltac literal_eqb :=
  repeat match goal with
         | |- context [pystr_eqb (lit ?a) (lit ?b)] =>
             let v := eval vm_compute in (pystr_eqb (lit a) (lit b)) in
             change (pystr_eqb (lit a) (lit b)) with v
         end.

Ltac lift_rule lem :=
  apply raises_only_lift_then;
  [ let e := fresh "e" in
    let H := fresh "H" in
    intros e H; apply lem in H; exact H
  | intros ? _ ].

Ltac raise_step :=
  lazymatch goal with
  | |- raises_only _ (bind (bind _ _) _) => apply raises_only_assoc
  | |- raises_only _ (bind (send _) _) => apply raises_only_send
  | |- raises_only _ (bind (print _) _) => apply raises_only_print_then
  | |- raises_only _ (bind (ret _) _) => apply raises_only_ret_then
  | |- raises_only _ (bind (lift (format_ttl _)) _) =>
      lift_rule format_ttl_raises
  | |- raises_only _ (bind (lift (format_bytes _)) _) =>
      lift_rule format_bytes_raises
  | |- raises_only _ (bind (lift (format_2f_num _)) _) =>
      lift_rule format_2f_num_raises
  | |- raises_only _ (bind (lift (hit_rate _ _)) _) =>
      lift_rule hit_rate_raises
  | |- raises_only _ (bind (lift (int_truediv _ ?b)) _) =>
      apply raises_only_lift_then;
      [ let e := fresh "e" in
        let H := fresh "H" in
        intros e H; apply int_truediv_raises in H;
        [ exact H
        | match goal with
          | Hlt : (0 <? b) = true |- _ => apply Z.ltb_lt in Hlt; lia
          end ]
      | intros ? _ ]
  | |- raises_only _ (bind _ _) => apply raises_only_bind; [|intros ?]
  | |- raises_only _ (print _) => apply raises_only_print
  | |- raises_only _ (ret _) => apply raises_only_ret
  | |- raises_only _ (for_each _ _) => apply raises_only_for_each; intros ?
  | |- raises_only _ (let '(_, _) := ?p in _) => destruct p
  | |- raises_only _ (match ?x with _ => _ end) =>
      destruct x eqn:?; try congruence
  end.

Ltac raise_tac :=
  repeat (cbv beta iota; cbn [negb]; literal_eqb; raise_step).

Section RunRaises.
Context {J : JsonLib} {Py : Interpreter}.

Lemma well_typed_entry (r : server) (k : pystr) (e : entry) (t : pystr) :
  well_typed r = true ->
  dict_get (keyspace r) k = Some e -> value e = ROther t ->
  known_type t = false.
Proof.
  unfold well_typed. induction (keyspace r) as [|[k0 e0] d IH]; simpl.
  - discriminate.
  - intros H Hg Hv. apply andb_true_iff in H. destruct H as [He Hd].
    destruct (pystr_eqb k0 k).
    + injection Hg as ->. unfold typed_entry in He. rewrite Hv in He.
      apply negb_true_iff, He.
    + apply IH; assumption.
Qed.

Lemma inspect_key_raises (r : server) (key namespace : pystr) :
  well_typed r = true ->
  only_overflow (inspect_key r key namespace).
Proof.
  intros Hwf. unfold only_overflow, inspect_key.
  set (full_key := full_key_of key namespace).
  unfold inspect_string, inspect_hash, inspect_list, inspect_set,
    render_item, r_exists, r_type, r_ttl, r_get, r_hgetall, r_llen,
    r_lrange, r_smembers, redis_exists, redis_type.
  pose proof (well_typed_entry r full_key) as Hk.
  destruct (dict_get (keyspace r) full_key) as [e|];
    [|raise_tac].
  specialize (Hk e).
  destruct (value e) as [v|fields|items|members|t].
  - raise_tac.
  - raise_tac.
  - raise_tac.
  - raise_tac.
  - specialize (Hk t Hwf eq_refl eq_refl). unfold known_type in Hk.
    apply orb_false_elim in Hk. destruct Hk as [Hk H4].
    apply orb_false_elim in Hk. destruct Hk as [Hk H3].
    apply orb_false_elim in Hk. destruct Hk as [H1 H2].
    raise_tac.
Qed.

Lemma after_connect_raises (env : environ) (argv0 : pystr)
  (args : list pystr) (r : server) (namespace : pystr) :
  well_typed r = true ->
  only_overflow
    (banner env namespace ;;
     keys <- r_keys r (namespace ++ lit ":*") ;;
     print (lit "Found " ++ str_of_int (len keys) ++
            lit " keys with namespace '" ++ namespace ++ lit "'") ;;
     print [] ;;
     if len keys =? 0 then print (lit "No cached data found.")
     else
       keys_by_type namespace keys ;;
       sample_keys r keys ;;
       memory_statistics r ;;
       cache_statistics r ;;
       match args with
       | key_to_inspect :: _ => inspect_key r key_to_inspect namespace
       | [] => usage_hint env argv0 namespace
       end).
Proof.
  intros Hwf. unfold only_overflow.
  pose proof (fun key => inspect_key_raises r key namespace Hwf) as Hi.
  unfold only_overflow in Hi.
  unfold banner, r_keys, keys_by_type, sample_keys, memory_statistics,
    cache_statistics, usage_hint, r_type, r_ttl, r_memory_usage, r_info.
  repeat (cbv beta iota zeta;
          lazymatch goal with
          | |- raises_only _ (inspect_key _ _ _) => apply Hi
          | _ => raise_step
          end).
Qed.

Lemma run_raises (s : startup) (env : environ) (argv0 : pystr)
  (args : list pystr) (r : server) (e : exn) :
  settings s = Ok env -> well_typed r = true -> ping r = Pong ->
  fst (run s argv0 args r) = Raise e -> e = OverflowError.
Proof.
  intros Hl Hwf Hp. unfold run, main.
  rewrite (bind_ok _ _ _ _ _
             (connect_redis_pong s env r initial_world Hl Hp)).
  cbv beta iota.
  apply (after_connect_raises env argv0 args r (env_namespace env) Hwf).
Qed.

(** X9. Once the environment has loaded (the [.env] file is accepted and
    the port reads as an integer), against a server that answers the
    connection test and whose keys have the types they report, a run
    either completes or ends with [OverflowError] (a number too large for
    a float): none of its divisions is by zero, none of its reads meets a
    missing value or a value of the wrong type, and it does not exit on
    its own. *)
Theorem run_completes_or_overflows (s : startup) (env : environ)
  (argv0 : pystr) (args : list pystr) (r : server) :
  settings s = Ok env -> well_typed r = true -> ping r = Pong ->
  fst (run s argv0 args r) = Ok tt \/
  fst (run s argv0 args r) = Raise OverflowError.
Proof.
  intros Hl Hwf Hp.
  destruct (fst (run s argv0 args r)) as [[]|e] eqn:E.
  - left. reflexivity.
  - right. f_equal. apply (run_raises s env argv0 args r e Hl Hwf Hp E).
Qed.

End RunRaises.

Lemma run_completes_or_overflows_witness :
  (fst (run example_startup script [lit "queue"] example_server) = Ok tt \/
   fst (run example_startup script [lit "queue"] example_server) =
     Raise OverflowError) /\
  (fst (run example_startup script [] overflow_server) = Ok tt \/
   fst (run example_startup script [] overflow_server) =
     Raise OverflowError).
Proof.
  split.
  - apply (run_completes_or_overflows example_startup example_env script
             [lit "queue"] example_server); reflexivity.
  - apply (run_completes_or_overflows example_startup example_env script
             [] overflow_server); reflexivity.
Defined.

(** The two outcomes occur; an environment that does not load ends the
    run with another exception, before anything is printed or sent. *)
Lemma run_outcomes :
  fst (run example_startup script [lit "queue"] example_server) = Ok tt /\
  fst (run example_startup script [] overflow_server) =
    Raise OverflowError /\
  run {| dotenv := Some [nameless_line]; inherited := [] |} script []
    example_server = (Raise EnvironError, initial_world) /\
  run {| dotenv := None; inherited := [(lit "REDIS_PORT", lit "redis")] |}
    script [] example_server = (Raise ValueError, initial_world).
Proof. repeat split; vm_compute; reflexivity. Qed.



(** ** Connection failure *)

Section ConnectionFailure.
Context {J : JsonLib} {Py : Interpreter}.

(** X10. When the environment has loaded and the connection test fails,
    the run prints the failure (two lines for a connection error, one for
    any other error) and exits with status 1: PING is the only command
    sent and nothing else is printed.  The connection is not released: it
    is open at the exit exactly when the failure came over an established
    connection, as when the server refuses the command. *)
Theorem connection_failure_report (s : startup) (env : environ)
  (argv0 : pystr) (args : list pystr) (r : server) :
  settings s = Ok env ->
  ping r <> Pong ->
  run s argv0 args r =
  (Raise (SystemExit 1),
   {| stdout := failure_lines env (ping r);
      calls := [PING];
      connected := established_by (ping r) |}) /\
  exit_code (fst (run s argv0 args r)) = 1.
Proof.
  intros Hl Hp.
  assert (E : run s argv0 args r =
              (Raise (SystemExit 1),
               {| stdout := failure_lines env (ping r);
                  calls := [PING];
                  connected := established_by (ping r) |})).
  { unfold run, main.
    rewrite (bind_raise _ _ _ _ _
               (connect_redis_failed s env r initial_world Hl Hp)).
    destruct (established_by (ping r)); reflexivity. }
  split; [exact E | rewrite E; reflexivity].
Qed.

End ConnectionFailure.

Lemma connection_failure_report_witness :
  (run example_startup script [] unreachable_server =
   (Raise (SystemExit 1),
    {| stdout :=
         [lit "Error: Cannot connect to Redis at localhost:6379";
          lit "Details: Connection refused"];
       calls := [PING];
       connected := false |}) /\
   exit_code (fst (run example_startup script [] unreachable_server)) = 1)
  /\
  (run example_startup script [lit "queue"] refusing_server =
   (Raise (SystemExit 1),
    {| stdout := [lit "Error connecting to Redis: unknown command 'PING'"];
       calls := [PING];
       connected := true |}) /\
   exit_code (fst (run example_startup script [lit "queue"]
                     refusing_server)) = 1).
Proof.
  assert (H1 : ping unreachable_server <> Pong) by discriminate.
  assert (H2 : ping refusing_server <> Pong) by discriminate.
  split.
  - exact (connection_failure_report example_startup example_env script []
             unreachable_server eq_refl H1).
  - exact (connection_failure_report example_startup example_env script
             [lit "queue"] refusing_server eq_refl H2).
Defined.

(** ** Memory statistics *)

Lemma memory_statistics_start (r : server) (w : world)
  (used_text peak_text : pystr) :
  let info := info r (lit "memory") in
  let used := dict_get_default info (lit "used_memory") 0 in
  let peak := dict_get_default info (lit "used_memory_peak") 0 in
  format_bytes used = Ok used_text ->
  format_bytes peak = Ok peak_text ->
  memory_statistics r w =
  (match dict_get info (lit "maxmemory") with
   | Some maxmemory =>
       if 0 <? maxmemory then
         limit <- lift (format_bytes maxmemory) ;;
         print (lit "  Max memory: " ++ limit) ;;
         q <- lift (int_truediv used maxmemory) ;;
         print (lit "  Usage: " ++ format_2f (fmul q (flt 100)) ++
                lit "%")
       else ret tt
   | None => ret tt
   end ;; print [])
    (emit (memory_heading used_text peak_text) [INFO (lit "memory")] w).
Proof.
  intros info0 used peak Hu Hp.
  unfold memory_statistics, r_info, memory_heading. fold info0. fold used.
  fold peak. repeat (step; cbv beta).
  rewrite (bind_lift_ok _ used_text) by exact Hu.
  repeat (step; cbv beta).
  rewrite (bind_lift_ok _ peak_text) by exact Hp.
  repeat (step; cbv beta). reflexivity.
Qed.

(** A size that [format_bytes] renders is one a float holds. *)
Lemma format_bytes_ok_bound (n : Z) (s : pystr) :
  format_bytes n = Ok s -> Z.abs n < float_overflow.
Proof.
  unfold format_bytes.
  cbn [format_bytes_loop num_lt_const num_div_const format_2f_num].
  unfold float_of_int.
  destruct (Z.ltb_spec (Z.abs n) float_overflow) as [H|H]; [intros _; exact H|].
  cbn [rbind]. destruct (n <? 1024); discriminate.
Qed.

(** X11. When the used and the peak memory render and there is no memory
    limit (no [maxmemory] in the reply, or one that is not positive), the
    memory section is its heading, the used and the peak memory and an
    empty line: no limit and no usage line, and nothing is divided. *)
Theorem memory_statistics_without_limit (r : server) (w : world)
  (used_text peak_text : pystr) :
  let info := info r (lit "memory") in
  format_bytes (dict_get_default info (lit "used_memory") 0) =
    Ok used_text ->
  format_bytes (dict_get_default info (lit "used_memory_peak") 0) =
    Ok peak_text ->
  dict_get_default info (lit "maxmemory") 0 <= 0 ->
  memory_statistics r w =
  (Ok tt,
   emit [lit "Memory Statistics:";
         lit "  Used memory: " ++ used_text;
         lit "  Peak memory: " ++ peak_text;
         []]
        [INFO (lit "memory")] w).
Proof.
  intros info0 Hu Hp Hm.
  rewrite (memory_statistics_start r w used_text peak_text Hu Hp).
  fold info0. unfold dict_get_default in Hm. unfold memory_heading.
  destruct (dict_get info0 (lit "maxmemory")) as [maxmemory|].
  - destruct (Z.ltb_spec 0 maxmemory); [lia|].
    rewrite bind_ret, print_emit, emit_emit. reflexivity.
  - rewrite bind_ret, print_emit, emit_emit. reflexivity.
Qed.

Lemma memory_statistics_without_limit_witness :
  memory_statistics example_server initial_world =
  (Ok tt,
   emit [lit "Memory Statistics:";
         lit "  Used memory: 1.00 MB";
         lit "  Peak memory: 2.00 MB";
         []]
        [INFO (lit "memory")] initial_world).
Proof.
  assert (H : dict_get_default (info example_server (lit "memory"))
                (lit "maxmemory") 0 <= 0) by (vm_compute; discriminate).
  exact (memory_statistics_without_limit example_server initial_world
           (lit "1.00 MB") (lit "2.00 MB") eq_refl eq_refl H).
Defined.

(** X12. With a positive memory limit whose size renders, the memory
    section adds the limit and the usage, the used memory over the limit
    times one hundred with two decimals: the division always succeeds. *)
Theorem memory_statistics_with_limit (r : server) (w : world)
  (used_text peak_text limit_text : pystr) :
  let info := info r (lit "memory") in
  let used := dict_get_default info (lit "used_memory") 0 in
  let maxmemory := dict_get_default info (lit "maxmemory") 0 in
  format_bytes used = Ok used_text ->
  format_bytes (dict_get_default info (lit "used_memory_peak") 0) =
    Ok peak_text ->
  0 < maxmemory ->
  format_bytes maxmemory = Ok limit_text ->
  exists q : float,
    int_truediv used maxmemory = Ok q /\
    memory_statistics r w =
    (Ok tt,
     emit [lit "Memory Statistics:";
           lit "  Used memory: " ++ used_text;
           lit "  Peak memory: " ++ peak_text;
           lit "  Max memory: " ++ limit_text;
           lit "  Usage: " ++ format_2f (fmul q (flt 100)) ++ lit "%";
           []]
          [INFO (lit "memory")] w).
Proof.
  intros info0 used maxmemory Hu Hp Hm Hl.
  assert (Hq : exists q, int_truediv used maxmemory = Ok q).
  { pose proof (format_bytes_ok_bound used used_text Hu) as Hb.
    unfold int_truediv.
    destruct (Z.eqb_spec maxmemory 0); [lia|].
    destruct (Z.leb_spec (float_overflow * Z.abs maxmemory) (Z.abs used))
      as [Hle|Hgt]; [|eexists; reflexivity].
    exfalso. rewrite (Z.abs_eq maxmemory) in Hle by lia.
    pose proof (Z.abs_nonneg used). nia. }
  destruct Hq as [q Hq]. exists q. split; [exact Hq|].
  rewrite (memory_statistics_start r w used_text peak_text Hu Hp).
  fold info0. fold used. unfold memory_heading.
  unfold maxmemory, dict_get_default in Hm, Hl, Hq.
  destruct (dict_get info0 (lit "maxmemory")) as [limit|]; [|lia].
  destruct (Z.ltb_spec 0 limit); [|lia].
  rewrite bind_assoc, (bind_lift_ok _ limit_text) by exact Hl.
  repeat (step; cbv beta).
  rewrite (bind_lift_ok _ q) by exact Hq.
  repeat (step; cbv beta).
  rewrite print_emit, emit_emit. reflexivity.
Qed.

Lemma memory_statistics_with_limit_witness :
  exists q : float,
    int_truediv 1048576 4194304 = Ok q /\
    memory_statistics limited_server initial_world =
    (Ok tt,
     emit [lit "Memory Statistics:";
           lit "  Used memory: 1.00 MB";
           lit "  Peak memory: 2.00 MB";
           lit "  Max memory: 4.00 MB";
           lit "  Usage: " ++ format_2f (fmul q (flt 100)) ++ lit "%";
           []]
          [INFO (lit "memory")] initial_world).
Proof.
  assert (H : 0 < dict_get_default (info limited_server (lit "memory"))
                    (lit "maxmemory") 0) by reflexivity.
  exact (memory_statistics_with_limit limited_server initial_world
           (lit "1.00 MB") (lit "2.00 MB") (lit "4.00 MB")
           eq_refl eq_refl H eq_refl).
Defined.

(** ** Sample keys *)

Lemma querying_for_each_in (P : command -> Prop) {A} (l : list A)
  (body : A -> M unit) :
  (forall x, In x l -> querying P (body x)) -> querying P (for_each l body).
Proof.
  induction l as [|x l IH]; intros Hb; simpl.
  - apply querying_ret.
  - apply querying_bind.
    + apply Hb. left. reflexivity.
    + intros _. apply IH. intros y Hy. apply Hb. right. exact Hy.
Qed.

Lemma enumerate_in {A} (l : list A) (start i : Z) (x : A) :
  In (i, x) (enumerate start l) -> In x l.
Proof.
  revert start. induction l as [|y l IH]; intros start; simpl; [tauto|].
  intros [E|H]; [injection E as _ ->; left; reflexivity|].
  right. apply (IH _ H).
Qed.

Lemma sample_keys_queries (r : server) (keys : list pystr) :
  querying (samples keys) (sample_keys r keys).
Proof.
  unfold sample_keys.
  apply querying_bind; [apply querying_print | intros _].
  apply querying_bind.
  - apply querying_for_each_in. intros [i key] Hin.
    apply enumerate_in in Hin.
    unfold r_type, r_ttl, r_memory_usage.
    repeat first
      [ apply querying_print | apply querying_ret | apply querying_lift
      | apply querying_send; exists key; split; [exact Hin | tauto]
      | apply querying_bind; [|intros ?]
      | match goal with
        | |- querying _ (match ?x with _ => _ end) => destruct x
        end ].
  - intros _. steady_tac.
Qed.

(** X14. The sampling loop queries only keys among the first ten of the
    scan, with TYPE, TTL and MEMORY USAGE and no other command. *)
Theorem sample_keys_bounded (r : server) (keys : list pystr) :
  querying (samples keys) (sample_keys r keys) /\
  (List.length (slice_to 10 keys) <= 10)%nat /\
  incl (slice_to 10 keys) keys.
Proof.
  split; [apply sample_keys_queries|split].
  - unfold slice_to. rewrite length_firstn. lia.
  - intros k Hk. unfold slice_to in Hk.
    rewrite <- (firstn_skipn 10 keys). apply in_or_app. left. exact Hk.
Qed.

(** ** Hit rate: the two ends *)

Lemma fdiv_self (p : positive) :
  fdiv (S754_finite false p 0) (S754_finite false p 0) = flt 1.
Proof.
  unfold fdiv, SFdiv, SFdiv_core_binary.
  replace (Z.sub (Z.add (Zdigits2 (Z.pos p)) 0) (Z.add (Zdigits2 (Z.pos p)) 0))
    with 0 by lia.
  change (Z.min (fexp prec emax 0) (0 - 0)) with (-53).
  change (0 - 0 - -53) with 53.
  rewrite Z.shiftl_mul_pow2 by lia.
  rewrite (Z.mul_comm (Z.pos p)), (div_eucl_exact (2 ^ 53) (Z.pos p)) by lia.
  assert (Hl : new_location (Z.pos p) 0 = loc_Exact).
  { unfold new_location, new_location_even, new_location_odd.
    destruct (Z.even (Z.pos p)); reflexivity. }
  rewrite Hl. reflexivity.
Qed.

(** X13. With hits only, the hit rate is printed as [100.00]; with misses
    only, as [0.00]: whatever the counts. *)
Theorem hit_rate_ends (n : Z) :
  0 < n ->
  rbind (hit_rate n 0) format_2f_num = Ok (lit "100.00") /\
  rbind (hit_rate 0 n) format_2f_num = Ok (lit "0.00").
Proof.
  intros Hn.
  pose proof float_overflow_large as Hf.
  change (2 ^ 70) with 1180591620717411303424 in Hf.
  split.
  - assert (E : hit_rate n 0 = Ok (PFloat (flt 100))).
    { unfold hit_rate. cbv zeta. rewrite Z.add_0_r.
      destruct (Z.ltb_spec 0 n); [|lia].
      unfold int_truediv.
      destruct (Z.eqb_spec n 0); [lia|].
      destruct (Z.leb_spec (float_overflow * Z.abs n) (Z.abs n))
        as [Hle|Hgt].
      { exfalso. rewrite (Z.abs_eq n) in Hle by lia. nia. }
      destruct n as [|p|p]; try lia.
      cbn [rbind Z.abs Z.to_pos]. change (Z.pos p <? 0) with false.
      rewrite fdiv_self. reflexivity. }
    rewrite E. reflexivity.
  - assert (E : hit_rate 0 n = Ok (PFloat (S754_zero false))).
    { unfold hit_rate. cbv zeta. rewrite Z.add_0_l.
      destruct (Z.ltb_spec 0 n); [|lia].
      unfold int_truediv.
      destruct (Z.eqb_spec n 0); [lia|].
      destruct (Z.leb_spec (float_overflow * Z.abs n) (Z.abs 0))
        as [Hle|Hgt].
      { exfalso. rewrite (Z.abs_eq n) in Hle by lia.
        change (Z.abs 0) with 0 in Hle. nia. }
      cbn [rbind].
      destruct (Z.ltb_spec n 0); [lia|]. reflexivity. }
    rewrite E. reflexivity.
Qed.

Lemma hit_rate_ends_witness :
  rbind (hit_rate 12 0) format_2f_num = Ok (lit "100.00") /\
  rbind (hit_rate 0 12) format_2f_num = Ok (lit "0.00").
Proof. apply (hit_rate_ends 12). lia. Defined.




(** ** The commands of a run *)

Lemma querying_ext (P : command -> Prop) {A} (m m' : M A) :
  (forall w, m w = m' w) -> querying P m' -> querying P m.
Proof. intros E H w. rewrite E. apply H. Qed.

Lemma querying_send_ret (P : command -> Prop) {A B} (c : command) (a : A)
  (k : A -> M B) :
  P c -> querying P (k a) ->
  querying P (bind (bind (send c) (fun _ => ret a)) k).
Proof.
  intros Hc Hk.
  apply (querying_ext P _ (bind (send c) (fun _ => k a))).
  - intros w. rewrite bind_assoc, !bind_send, bind_ret. reflexivity.
  - apply querying_bind; [apply querying_send, Hc | intros _; exact Hk].
Qed.

Ltac query_step solve_send :=
  lazymatch goal with
  | |- querying _ (bind _ _) => apply querying_bind; [|intros ?]
  | |- querying _ (print _) => apply querying_print
  | |- querying _ (send _) => apply querying_send; solve_send
  | |- querying _ (ret _) => apply querying_ret
  | |- querying _ (lift _) => apply querying_lift
  | |- querying _ (raise _) => apply querying_raise
  | |- querying _ (for_each _ _) => apply querying_for_each; intros ?
  | |- querying _ (match ?x with _ => _ end) => destruct x
  end.

Section RunCommands.
Context {J : JsonLib} {Py : Interpreter}.

Lemma after_connect_commands (env : environ) (argv0 : pystr)
  (args : list pystr) (r : server) :
  let namespace := env_namespace env in
  querying (run_command env args r)
    (banner env namespace ;;
     keys <- r_keys r (namespace ++ lit ":*") ;;
     print (lit "Found " ++ str_of_int (len keys) ++
            lit " keys with namespace '" ++ namespace ++ lit "'") ;;
     print [] ;;
     if len keys =? 0 then print (lit "No cached data found.")
     else
       keys_by_type namespace keys ;;
       sample_keys r keys ;;
       memory_statistics r ;;
       cache_statistics r ;;
       match args with
       | key_to_inspect :: _ => inspect_key r key_to_inspect namespace
       | [] => usage_hint env argv0 namespace
       end).
Proof.
  intros namespace.
  apply querying_bind;
    [unfold banner; repeat query_step idtac | intros _].
  unfold r_keys. apply querying_send_ret.
  { right. left. reflexivity. }
  apply querying_bind; [apply querying_print | intros _].
  apply querying_bind; [apply querying_print | intros _].
  destruct (len (scan r (namespace ++ lit ":*")) =? 0);
    [apply querying_print|].
  apply querying_bind;
    [unfold keys_by_type; repeat query_step idtac | intros _].
  apply querying_bind.
  { eapply querying_weaken;
      [|apply sample_keys_queries].
    intros c Hc. right. right. left. exact Hc. }
  intros _. apply querying_bind.
  { unfold memory_statistics, r_info.
    repeat query_step ltac:(right; right; right; left; reflexivity). }
  intros _. apply querying_bind.
  { unfold cache_statistics, r_info.
    repeat query_step
      ltac:(right; right; right; right; left; reflexivity). }
  intros _. destruct args as [|key rest].
  - unfold usage_hint. repeat query_step idtac.
  - eapply querying_weaken; [|apply inspect_key_one_key].
    intros c Hc. do 5 right. exact Hc.
Qed.

(** X15. Every command of a run is one of: the connection test, the scan
    of the namespace, a TYPE, TTL or MEMORY USAGE about one of the first
    ten keys of the scan, INFO for the memory or the stats section, or a
    command about the resolved key of the command line; with no argument
    no other key is touched.  A run whose environment does not load sends
    nothing. *)
Theorem run_commands (s : startup) (argv0 : pystr) (args : list pystr)
  (r : server) :
  match settings s with
  | Ok env =>
      Forall (run_command env args r) (calls (snd (run s argv0 args r)))
  | Raise _ => calls (snd (run s argv0 args r)) = []
  end.
Proof.
  destruct (settings s) as [env|e] eqn:Hl.
  - unfold run, main.
    destruct (ping r) as [|details|details held] eqn:Hp.
    + rewrite (bind_ok _ _ _ _ _
                 (connect_redis_pong s env r initial_world Hl Hp)).
      cbv beta iota.
      destruct (after_connect_commands env argv0 args r
                  (opened (emit [] [PING] initial_world)))
        as [lines [cmds [E F]]].
      cbv zeta in E. rewrite E. simpl calls.
      constructor; [left; reflexivity | exact F].
    + assert (Hn : ping r <> Pong) by (rewrite Hp; discriminate).
      rewrite (bind_raise _ _ _ _ _
                 (connect_redis_failed s env r initial_world Hl Hn)).
      simpl. constructor; [left; reflexivity | constructor].
    + assert (Hn : ping r <> Pong) by (rewrite Hp; discriminate).
      rewrite (bind_raise _ _ _ _ _
                 (connect_redis_failed s env r initial_world Hl Hn)).
      simpl. constructor; [left; reflexivity | constructor].
  - unfold run, main.
    rewrite (bind_raise _ _ _ _ _
               (connect_redis_unset s e r initial_world Hl)).
    reflexivity.
Qed.

End RunCommands.




(** ** The environment file *)

Lemma load_env_lines_app (l1 l2 : list pystr) (env : dict pystr) :
  load_env_lines (l1 ++ l2) env =
  match load_env_lines l1 env with
  | Some env1 => load_env_lines l2 env1
  | None => None
  end.
Proof.
  revert env. induction l1 as [|line l1 IH]; intros env; simpl.
  - reflexivity.
  - destruct (env_assignment line) as [[key value]|]; [|apply IH].
    destruct (environ_set env key value); [apply IH | reflexivity].
Qed.

Lemma env_assignment_ignored (line : pystr) :
  strip line = [] \/
  startswith (strip line) (lit "#") = true \/
  contains (strip line) (lit "=") = false ->
  env_assignment line = None.
Proof.
  unfold env_assignment. cbv zeta.
  destruct (strip line) as [|c t] eqn:E; [reflexivity|].
  intros [H|[H|H]]; [discriminate| |]; rewrite H; cbn [negb andb];
    try reflexivity.
  rewrite andb_false_r. reflexivity.
Qed.

(** X16. A blank line, a comment and a line without [=] have no effect:
    the file loads as it does without the line. *)
Theorem load_env_file_skips (before after : list pystr) (line : pystr)
  (env : dict pystr) :
  strip line = [] \/
  startswith (strip line) (lit "#") = true \/
  contains (strip line) (lit "=") = false ->
  load_env_file (Some (before ++ line :: after)) env =
  load_env_file (Some (before ++ after)) env.
Proof.
  intros H. unfold load_env_file. rewrite !load_env_lines_app.
  destruct (load_env_lines before env) as [env1|]; [|reflexivity].
  simpl. rewrite (env_assignment_ignored line H). reflexivity.
Qed.

Lemma load_env_file_skips_witness :
  load_env_file (Some ([host_line] ++ comment_line :: [port_line])) [] =
  load_env_file (Some ([host_line] ++ [port_line])) [].
Proof.
  apply (load_env_file_skips [host_line] [port_line] comment_line []).
  right. left. reflexivity.
Defined.

Lemma lstrip_spaces (ws s : pystr) :
  forallb is_space ws = true -> lstrip (ws ++ s) = lstrip s.
Proof.
  induction ws as [|c ws IH]; simpl; [reflexivity|].
  intros H. apply andb_true_iff in H. destruct H as [Hc Hws].
  rewrite Hc. apply IH, Hws.
Qed.

Lemma lstrip_length (s : pystr) :
  (List.length (lstrip s) <= List.length s)%nat.
Proof.
  induction s as [|c s IH]; simpl; [lia|].
  destruct (is_space c); simpl; lia.
Qed.

(** A string that [lstrip] keeps is empty or starts with a character that
    is not a blank. *)
Lemma lstrip_fixed (s : pystr) :
  lstrip s = s ->
  match s with [] => True | c :: _ => is_space c = false end.
Proof.
  destruct s as [|c t]; [trivial|]. simpl.
  destruct (is_space c); [|reflexivity].
  intros H. pose proof (lstrip_length t) as Hl. rewrite H in Hl.
  simpl in Hl. lia.
Qed.

Lemma lstrip_keeps (s t : pystr) :
  s <> [] -> lstrip s = s -> lstrip (s ++ t) = s ++ t.
Proof.
  intros Hs H. apply lstrip_fixed in H.
  destruct s as [|c s']; [contradiction|]. simpl. rewrite H. reflexivity.
Qed.

Lemma rstrip_spaces (s ws : pystr) :
  forallb is_space ws = true -> rstrip (s ++ ws) = rstrip s.
Proof.
  intros H. unfold rstrip. rewrite rev_app_distr, lstrip_spaces;
    [reflexivity|].
  rewrite forallb_forall in *. intros c Hc. apply H.
  apply in_rev. exact Hc.
Qed.

Lemma rstrip_keeps (s t : pystr) :
  t <> [] -> rstrip t = t -> rstrip (s ++ t) = s ++ t.
Proof.
  intros Ht H. unfold rstrip in *.
  assert (Hr : lstrip (rev t) = rev t).
  { rewrite <- (rev_involutive (lstrip (rev t))), H. reflexivity. }
  rewrite rev_app_distr, lstrip_keeps, <- rev_app_distr, rev_involutive;
    [reflexivity| |exact Hr].
  intros E. apply Ht. rewrite <- (rev_involutive t), E. reflexivity.
Qed.

Lemma find_first_char (c : char) (pre post : pystr) :
  ~ In c pre -> find_first [c] (pre ++ c :: post) = Some (pre, post).
Proof.
  induction pre as [|x pre IH]; intros Hn.
  - simpl. rewrite N.eqb_refl. reflexivity.
  - rewrite find_first_unfold.
    assert (Hx : N.eqb c x = false).
    { apply N.eqb_neq. intros E. apply Hn. left. symmetry. exact E. }
    simpl startswith. rewrite Hx. simpl.
    rewrite IH; [reflexivity|]. intros H. apply Hn. right. exact H.
Qed.

(** A line [NAME=VALUE], whatever blanks surround it, assigns the stripped
    value to the stripped name; the value may itself hold [=]. *)
Lemma contains_char_false (c : char) (s : pystr) :
  contains s [c] = false -> ~ In c s.
Proof.
  unfold contains. induction s as [|x s IH]; intros H; [tauto|].
  rewrite find_first_unfold in H. simpl startswith in H.
  destruct (N.eqb_spec c x) as [E|E]; [discriminate|].
  simpl in H. intros [Hx|Hin]; [congruence|].
  apply IH; [|exact Hin].
  destruct (find_first [c] s) as [[pre post]|]; [discriminate|reflexivity].
Qed.

Lemma env_assignment_line (ws1 ws2 name value : pystr) :
  forallb is_space ws1 = true -> forallb is_space ws2 = true ->
  name <> [] -> lstrip name = name -> rstrip value = value ->
  ~ In 61%N name -> startswith name (lit "#") = false ->
  env_assignment (ws1 ++ name ++ lit "=" ++ value ++ ws2) =
  Some (strip name, strip value).
Proof.
  intros H1 H2 Hn Hl Hr Heq Hc. unfold env_assignment. cbv zeta.
  assert (Hs : strip (ws1 ++ name ++ lit "=" ++ value ++ ws2) =
               name ++ lit "=" ++ value).
  { unfold strip. rewrite lstrip_spaces by exact H1.
    rewrite lstrip_keeps by assumption.
    rewrite !(app_assoc _ _ ws2), <- !app_assoc.
    replace (name ++ lit "=" ++ value ++ ws2)
      with ((name ++ lit "=" ++ value) ++ ws2)
      by (rewrite <- !app_assoc; reflexivity).
    rewrite rstrip_spaces by exact H2.
    destruct value as [|v value'].
    - rewrite app_nil_r. apply rstrip_keeps; [discriminate | reflexivity].
    - rewrite (app_assoc name). apply rstrip_keeps; [discriminate|exact Hr]. }
  rewrite Hs.
  destruct name as [|c name'] eqn:En; [contradiction|].
  rewrite <- En in *.
  assert (Hline : name ++ lit "=" ++ value =
                  c :: name' ++ lit "=" ++ value) by (rewrite En; reflexivity).
  rewrite Hline at 1.
  assert (Hstart : startswith (name ++ lit "=" ++ value) (lit "#") = false).
  { rewrite En in *. exact Hc. }
  rewrite Hstart. cbn [negb andb].
  assert (Hcontains : contains (name ++ lit "=" ++ value) (lit "=") = true)
    by apply contains_app.
  rewrite Hcontains. unfold split1.
  replace (find_first (lit "=") (name ++ lit "=" ++ value))
    with (Some (name, value))
    by (symmetry; apply (find_first_char 61%N name value Heq)).
  reflexivity.
Qed.

Lemma lstrip_last (x : pystr) (c : char) :
  is_space c = false -> lstrip (x ++ [c]) <> [].
Proof.
  intros Hc. induction x as [|y x IH]; simpl.
  - rewrite Hc. discriminate.
  - destruct (is_space y); [exact IH | discriminate].
Qed.

Lemma strip_nonempty (name : pystr) :
  name <> [] -> lstrip name = name -> strip name <> [].
Proof.
  intros Hn Hl. unfold strip. rewrite Hl. unfold rstrip.
  pose proof (lstrip_fixed name Hl) as Hc.
  destruct name as [|c t]; [contradiction|].
  simpl rev. intros E.
  apply (lstrip_last (rev t) c Hc).
  rewrite <- (rev_involutive (lstrip (rev t ++ [c]))), E. reflexivity.
Qed.

(** X17. When the lines before it load, a line [NAME=VALUE], whatever
    blanks surround the name, the value and the line, whose name and value
    [os.environ] accepts (no NUL, no surrogate it cannot encode), sets the
    stripped name to the stripped value, which may itself hold [=]; the
    value replaces one the environment or an earlier line gave, and no
    other name changes. *)
Theorem load_env_file_assigns (lines : list pystr)
  (ws1 ws2 name value : pystr) (env env1 : dict pystr) :
  let line := ws1 ++ name ++ lit "=" ++ value ++ ws2 in
  load_env_file (Some lines) env = Some env1 ->
  forallb is_space ws1 = true -> forallb is_space ws2 = true ->
  name <> [] -> lstrip name = name -> rstrip value = value ->
  contains name (lit "=") = false -> startswith name (lit "#") = false ->
  encodable (strip name) = true -> encodable (strip value) = true ->
  exists env2 : dict pystr,
    load_env_file (Some (lines ++ [line])) env = Some env2 /\
    dict_get env2 (strip name) = Some (strip value) /\
    forall k, k <> strip name -> dict_get env2 k = dict_get env1 k.
Proof.
  intros line Hload H1 H2 Hn Hl Hr Heq Hc Ek Ev.
  apply (contains_char_false 61%N) in Heq.
  exists (dict_set env1 (strip name) (strip value)).
  split; [|split].
  - unfold load_env_file in *. rewrite load_env_lines_app, Hload.
    simpl. unfold line.
    rewrite (env_assignment_line ws1 ws2 name value) by assumption.
    unfold environ_set. rewrite Ek, Ev.
    pose proof (strip_nonempty name Hn Hl) as Hne.
    destruct (strip name); [contradiction | reflexivity].
  - rewrite dict_get_set, pystr_eqb_refl. reflexivity.
  - intros k Hk. rewrite dict_get_set.
    destruct (pystr_eqb (strip name) k) eqn:E; [|reflexivity].
    apply pystr_eqb_eq in E. congruence.
Qed.

Lemma load_env_file_assigns_witness :
  exists env2 : dict pystr,
    load_env_file
      (Some ([host_line] ++
             [lit "  " ++ lit "REDIS_HOST " ++ lit "=" ++ lit " a=b" ++
              newline]))
      [(lit "REDIS_HOST", lit "old")] = Some env2 /\
    dict_get env2 (lit "REDIS_HOST") = Some (lit "a=b") /\
    forall k, k <> lit "REDIS_HOST" ->
              dict_get env2 k =
              dict_get [(lit "REDIS_HOST", lit "cache")] k.
Proof.
  assert (Hn : lit "REDIS_HOST " <> []) by discriminate.
  exact (load_env_file_assigns [host_line] (lit "  ") newline
           (lit "REDIS_HOST ") (lit " a=b")
           [(lit "REDIS_HOST", lit "old")]
           [(lit "REDIS_HOST", lit "cache")]
           eq_refl eq_refl eq_refl Hn eq_refl eq_refl eq_refl eq_refl
           eq_refl eq_refl).
Defined.

(** X18. A line whose text starts with [=] stops the load with an
    exception: the name it assigns to is empty. *)
Theorem load_env_file_empty_name (before after : list pystr)
  (line : pystr) (env env1 : dict pystr) :
  load_env_file (Some before) env = Some env1 ->
  startswith (strip line) (lit "=") = true ->
  load_env_file (Some (before ++ line :: after)) env = None.
Proof.
  intros Hload Hs. unfold load_env_file in *.
  rewrite load_env_lines_app, Hload. simpl.
  unfold env_assignment. cbv zeta.
  destruct (strip line) as [|c rest]; [discriminate|].
  change (lit "=") with [61%N] in Hs. cbn [startswith] in Hs.
  rewrite andb_true_r in Hs. apply N.eqb_eq in Hs. subst c.
  change (startswith (61%N :: rest) (lit "#")) with false.
  cbn [negb andb].
  unfold contains, split1.
  match goal with
  | |- context [find_first ?pat ?s] =>
      rewrite (find_first_prefix (lit "=") rest
               : find_first pat s = Some ([], rest))
  end.
  reflexivity.
Qed.

Lemma load_env_file_empty_name_witness :
  load_env_file (Some ([host_line] ++ nameless_line :: [port_line])) [] =
  None.
Proof.
  apply (load_env_file_empty_name [host_line] [port_line] nameless_line []
           [(lit "REDIS_HOST", lit "cache")]);
    reflexivity.
Defined.
